(** * Gaussian process regression: [nispat/gp.py]

    A shallow embedding of the covariance functions ([CovLin], [CovSqExp],
    [CovSqExpARD]) and of the regression engine [GPR] of [nispat/gp.py].

    - A Python float is an IEEE binary64 number: Rocq's primitive [float].
    - A 1-D ndarray is a [list float], a 2-D ndarray a list of rows.  The
      engine's arguments are typed as the docstring of [GPR] gives them:
      [hyp] and [y] are 1-D, [X] and [Xs] are 2-D ("N x D data array"), so
      the reshaping of a 1-D [X] at the head of [post] has no counterpart.
    - Python objects with mutable attributes live in a store: the engine
      ([self]) is a record of optional attributes, the covariance function
      instances are reached through references into a heap, and what the
      code prints is appended to a log.
    - Exceptions are values: every operation runs in a state-and-error monad,
      and a raise keeps the mutations made before it.
    - [numpy.exp], [numpy.log], [numpy.linalg.cholesky], [numpy.linalg.solve],
      [utils.squared_dist] and the two [scipy.optimize] minimisers are not
      part of the file: they are operations of the interfaces [MathLib],
      [LinAlg], [PairwiseDistance] and [Optimizer].
    - What [==] does on two arrays whose shapes cannot be broadcast
      together depends on the release of NumPy (the scalar False before
      1.25, a ValueError since): the interface [Comparison] leaves it open,
      and the cache test [_updatepost] may raise.  *)

From Stdlib Require Import ZArith String Ascii Bool Lia.
From Stdlib Require Import Floats.PrimFloat.
From stdpp Require Import base option list gmap.

Unset Default Proof Using.

(** ** Exceptions and results *)

Inductive exn : Type :=
| ValueError (msg : string)
| LinAlgError (msg : string)
| IndexError (msg : string)
| TypeError (msg : string)
| AttributeError (attr : string).

Inductive res (A : Type) : Type :=
| Ok (a : A)
| Raise (e : exn).
Arguments Ok {A} a.
Arguments Raise {A} e.

(** [except (ValueError, LinAlgError)] *)
Definition caught (e : exn) : bool :=
  match e with
  | ValueError _ | LinAlgError _ => true
  | _ => false
  end.

Definition res_bind {A B} (r : res A) (k : A → res B) : res B :=
  match r with
  | Ok a => k a
  | Raise e => Raise e
  end.

(** ** binary64 scalars *)

Module F64.

Local Open Scope float_scope.

(** [np.finfo(float).eps] *)
Definition eps : float := 0x1p-52.

(** [1/np.finfo(float).eps] *)
Definition sentinel : float := 1 / eps.

(** [np.pi] *)
Definition pi : float := 0x1.921fb54442d18p+1.

(** [np.isfinite] *)
Definition isfinite (x : float) : bool := is_finite x.

(** [np.sign]: -1, 0 or 1, and nan for nan. *)
Definition sign (x : float) : float :=
  if x <? 0 then -1
  else if 0 <? x then 1
  else if x =? 0 then 0
  else x.

(** The float of a Python int. *)
Fixpoint of_pos (p : positive) : float :=
  match p with
  | xH => 1
  | xO q => 2 * of_pos q
  | xI q => 2 * of_pos q + 1
  end.

Definition of_Z (z : Z) : float :=
  match z with
  | Z0 => 0
  | Zpos p => of_pos p
  | Zneg p => - of_pos p
  end.

Definition of_nat (n : nat) : float := of_Z (Z.of_nat n).

(** Python's builtin [sum]: from the int 0, left to right. *)
Definition pysum (l : list float) : float := fold_left add l 0.

End F64.

(** ** Arrays *)

Definition vec : Type := list float.
Definition mat : Type := list (list float).

(** A 0-d or a 1-d array: [self.hyp] starts as the scalar [np.nan]. *)
Inductive arr01 : Type :=
| Scalar (x : float)
| Vec (v : vec).

(** A 0-d or a 2-d array: what [dcov] returns. *)
Inductive arr02 : Type :=
| Zero_d (x : float)
| Two_d (m : mat).

Module Np.

Local Open Scope float_scope.

Definition nrows (a : mat) : nat := length a.
Definition ncols (a : mat) : nat := length (hd [] a).

(** [a.T] *)
Fixpoint transpose (a : mat) : mat :=
  match a with
  | [] => []
  | r :: rs =>
      match rs with
      | [] => map (λ x, [x]) r
      | _ => zip_with cons r (transpose rs)
      end
  end.

(** Broadcasting of one axis: equal lengths, or one of them is 1. *)
Definition bshape (n m : nat) : option nat :=
  if (n =? m)%nat then Some n
  else if (n =? 1)%nat then Some m
  else if (m =? 1)%nat then Some n
  else None.

Definition stretch {A} (n : nat) (l : list A) : list A :=
  match l with
  | [x] => replicate n x
  | _ => l
  end.

Definition broadcast_error : exn :=
  ValueError "operands could not be broadcast together".

(** An element-wise binary operation on 1-d arrays. *)
Definition broadcast1 {B} (f : float → float → B) (a b : vec) : res (list B) :=
  match bshape (length a) (length b) with
  | Some n => Ok (zip_with f (stretch n a) (stretch n b))
  | None => Raise broadcast_error
  end.

(** An element-wise binary operation on 2-d arrays. *)
Definition broadcast2 (f : float → float → float) (a b : mat) : res mat :=
  match bshape (nrows a) (nrows b), bshape (ncols a) (ncols b) with
  | Some r, Some c =>
      Ok (zip_with (λ ra rb, zip_with f (stretch c ra) (stretch c rb))
                   (stretch r a) (stretch r b))
  | _, _ => Raise broadcast_error
  end.

(** A scalar against a 2-d array, and a function mapped over one. *)
Definition mmap (f : float → float) (a : mat) : mat := map (map f) a.

(** Sums are accumulated from 0, left to right. NumPy leaves the order to
    BLAS and to pairwise summation; no statement below depends on it. *)
Definition fsum (l : list float) : float := fold_left add l 0.

Definition inner (a b : vec) : float := fsum (zip_with mul a b).

Definition dot_error : exn := ValueError "shapes not aligned".

(** [a.dot(b)] for two 1-d arrays *)
Definition vdot (a b : vec) : res float :=
  if (length a =? length b)%nat then Ok (inner a b) else Raise dot_error.

(** [a.dot(b)] for a 2-d and a 1-d array *)
Definition mvdot (a : mat) (b : vec) : res vec :=
  if (ncols a =? length b)%nat then Ok (map (λ r, inner r b) a)
  else Raise dot_error.

(** [a.dot(b)] for two 2-d arrays *)
Definition mdot (a b : mat) : res mat :=
  if (ncols a =? nrows b)%nat
  then Ok (map (λ r, map (λ c, inner r c) (transpose b)) a)
  else Raise dot_error.

(** [np.eye(n)] *)
Definition eye (n : nat) : mat :=
  map (λ i, map (λ j, if (i =? j)%nat then 1 else 0) (seq 0 n)) (seq 0 n).

(** [np.diag] of a 2-d array: its diagonal. *)
Fixpoint diag_from (i : nat) (a : mat) : vec :=
  match a with
  | [] => []
  | r :: rs =>
      match r !! i with
      | Some x => x :: diag_from (S i) rs
      | None => []
      end
  end.

Definition diag (a : mat) : vec := diag_from 0 a.

(** [np.diag] of a 1-d array: the diagonal matrix. *)
Definition diagflat (v : vec) : mat :=
  imap (λ i x, imap (λ j _, if (i =? j)%nat then x else 0) v) v.

(** [np.outer] *)
Definition outer (a b : vec) : mat := map (λ x, map (λ y, x * y) b) a.

(** [np.trace] *)
Definition trace (a : mat) : float := fsum (diag a).

(** [np.sum] of a 2-d array with no axis. *)
Definition sum (a : mat) : float := fsum (concat a).

(** [np.zeros(n)] *)
Definition zeros (n : nat) : vec := replicate n 0.

(** [a == b] on two arrays whose shapes cannot be broadcast together:
    NumPy before 1.25 warns and gives the single value False, NumPy 1.25
    and later raise ValueError. *)
Inductive mismatch : Type :=
| ComparesFalse
| RaisesValueError.

(** [hyp == self.hyp], then [np.asarray(...).all()]. The comparison
    broadcasts: a scalar or a one-element array is compared with every
    element of the other side. On shapes that do not broadcast the result
    is that of [m]. *)
Definition eq_all (m : mismatch) (a : vec) (b : arr01) : res bool :=
  match b with
  | Scalar y => Ok (forallb (λ x, x =? y) a)
  | Vec b =>
      match broadcast1 PrimFloat.eqb a b with
      | Ok l => Ok (forallb id l)
      | Raise e =>
          match m with
          | ComparesFalse => Ok false
          | RaisesValueError => Raise e
          end
      end
  end.

(** Python indexing of a sequence of length [n] by an int: negative
    indices count from the end. *)
Definition pyindex (n : nat) (i : Z) : option nat :=
  if decide (0 ≤ i < Z.of_nat n)%Z then Some (Z.to_nat i)
  else if decide (- Z.of_nat n ≤ i < 0)%Z then Some (Z.to_nat (Z.of_nat n + i))
  else None.

Definition index_error : exn := IndexError "index out of bounds".

(** [v[i]] *)
Definition getitem (v : vec) (i : Z) : res float :=
  match pyindex (length v) i with
  | Some k =>
      match v !! k with
      | Some x => Ok x
      | None => Raise index_error
      end
  | None => Raise index_error
  end.

(** [x[:, i]] *)
Definition column (x : mat) (i : Z) : res vec :=
  match pyindex (ncols x) i with
  | Some k => Ok (map (λ r, default 0 (r !! k)) x)
  | None => Raise index_error
  end.

End Np.

(** ** The object store *)

(** A reference to a covariance function instance. Two references are the
    same object exactly when they are equal: no class of the file defines
    [__eq__], so [covfunc == self.covfunc] compares identities. *)
Definition ref : Type := nat.

(** The instances of the three concrete classes, with their attributes.
    [n_params] is fixed by the class (and by [D]), see [get_n_params]. *)
Inductive covobj : Type :=
| CovLin (first_call : bool)
| CovSqExp (ell sf2 : option float)
| CovSqExpARD (D : nat) (ell : option vec) (sf2 : option float).

(** The attributes of a [GPR] instance ([Self.hyp g] is [self.hyp]).
    [__init__] sets [hyp], [nlZ], [tol], [n_iter] and [verbose]; the others
    exist once assigned. *)
Module Self.

Record t : Type := mk {
  hyp : arr01;
  nlZ : float;
  tol : float;
  n_iter : Z;
  verbose : bool;
  N : option nat;
  D : option nat;
  K : option mat;
  L : option mat;
  alpha : option vec;
  covfunc : option ref;
  dnlZ : option vec;
  optimizer : option string
}.

Definition set_hyp (v : arr01) (g : t) : t :=
  mk v (nlZ g) (tol g) (n_iter g) (verbose g) (N g) (D g) (K g) (L g)
    (alpha g) (covfunc g) (dnlZ g) (optimizer g).

Definition set_nlZ (v : float) (g : t) : t :=
  mk (hyp g) v (tol g) (n_iter g) (verbose g) (N g) (D g) (K g) (L g)
    (alpha g) (covfunc g) (dnlZ g) (optimizer g).

Definition set_N (v : nat) (g : t) : t :=
  mk (hyp g) (nlZ g) (tol g) (n_iter g) (verbose g) (Some v) (D g) (K g) (L g)
    (alpha g) (covfunc g) (dnlZ g) (optimizer g).

Definition set_D (v : nat) (g : t) : t :=
  mk (hyp g) (nlZ g) (tol g) (n_iter g) (verbose g) (N g) (Some v) (K g) (L g)
    (alpha g) (covfunc g) (dnlZ g) (optimizer g).

Definition set_K (v : mat) (g : t) : t :=
  mk (hyp g) (nlZ g) (tol g) (n_iter g) (verbose g) (N g) (D g) (Some v) (L g)
    (alpha g) (covfunc g) (dnlZ g) (optimizer g).

Definition set_L (v : mat) (g : t) : t :=
  mk (hyp g) (nlZ g) (tol g) (n_iter g) (verbose g) (N g) (D g) (K g) (Some v)
    (alpha g) (covfunc g) (dnlZ g) (optimizer g).

Definition set_alpha (v : vec) (g : t) : t :=
  mk (hyp g) (nlZ g) (tol g) (n_iter g) (verbose g) (N g) (D g) (K g) (L g)
    (Some v) (covfunc g) (dnlZ g) (optimizer g).

Definition set_covfunc (v : ref) (g : t) : t :=
  mk (hyp g) (nlZ g) (tol g) (n_iter g) (verbose g) (N g) (D g) (K g) (L g)
    (alpha g) (Some v) (dnlZ g) (optimizer g).

Definition set_dnlZ (v : vec) (g : t) : t :=
  mk (hyp g) (nlZ g) (tol g) (n_iter g) (verbose g) (N g) (D g) (K g) (L g)
    (alpha g) (covfunc g) (Some v) (optimizer g).

Definition set_optimizer (v : string) (g : t) : t :=
  mk (hyp g) (nlZ g) (tol g) (n_iter g) (verbose g) (N g) (D g) (K g) (L g)
    (alpha g) (covfunc g) (dnlZ g) (Some v).

End Self.

(** One argument of a [print] call. *)
Inductive pyval : Type :=
| PStr (s : string)
| PFloat (x : float)
| PVec (v : vec).

Record world : Type := mkWorld {
  self : Self.t;
  heap : gmap ref covobj;
  stdout : list (list pyval)
}.

(** ** The monad of the methods: state and exceptions *)

Definition M (A : Type) : Type := world → res A * world.

Global Instance M_ret : MRet M := λ A a w, (Ok a, w).

Global Instance M_bind : MBind M := λ A B k c w,
  match c w with
  | (Ok a, w') => k a w'
  | (Raise e, w') => (Raise e, w')
  end.

Global Instance M_throw : MThrow exn M := λ A e w, (Raise e, w).

(** A pure computation that may raise. *)
Definition lift {A} (r : res A) : M A := λ w, (r, w).

(** [try: c  except (ValueError, LinAlgError): h] *)
Definition try_except {A} (c : M A) (h : M A) : M A :=
  λ w, match c w with
       | (Ok a, w') => (Ok a, w')
       | (Raise e, w') => if caught e then h w' else (Raise e, w')
       end.

(** Reading and writing the attributes of [self]. *)
Definition get_self : M Self.t := λ w, (Ok (self w), w).

Definition modify_self (f : Self.t → Self.t) : M unit :=
  λ w, (Ok tt, mkWorld (f (self w)) (heap w) (stdout w)).

(** [self.name] for an attribute that may not exist yet. *)
Definition getattr {A} (name : string) (field : Self.t → option A) : M A :=
  λ w, match field (self w) with
       | Some a => (Ok a, w)
       | None => (Raise (AttributeError name), w)
       end.

(** [print(...)] *)
Definition print (args : list pyval) : M unit :=
  λ w, (Ok tt, mkWorld (self w) (heap w) (stdout w ++ [args])).

(** The attributes of the object behind a reference; an object that is no
    covariance function has none of their methods. *)
Definition deref (method : string) (c : ref) : M covobj :=
  λ w, match heap w !! c with
       | Some o => (Ok o, w)
       | None => (Raise (AttributeError method), w)
       end.

Definition store (c : ref) (o : covobj) : M unit :=
  λ w, (Ok tt, mkWorld (self w) (<[c := o]> (heap w)) (stdout w)).

(** ** External collaborators *)

(** [numpy.exp] and [numpy.log] on a scalar. *)
Class MathLib : Type := {
  np_exp : float → float;
  np_log : float → float
}.

(** [==] on arrays whose shapes cannot be broadcast together: the
    behaviour of the NumPy release in use. *)
Class Comparison : Type := {
  np_equal_mismatch : Np.mismatch
}.

(** [numpy.linalg.cholesky], and [numpy.linalg.solve] with a 1-d and with a
    2-d right-hand side. *)
Class LinAlg : Type := {
  chol : mat → res mat;
  solve : mat → vec → res vec;
  solve2 : mat → mat → res mat
}.

(** [utils.squared_dist], on 2-d and on 1-d arrays. *)
Class PairwiseDistance : Type := {
  squared_dist : mat → mat → res mat;
  squared_dist1 : vec → vec → res mat
}.

(** [scipy.optimize.fmin_cg(f, x0, fprime, args, gtol, maxiter,
    full_output=1)] and [scipy.optimize.fmin_powell(f, x0, args,
    full_output=1)]: the first two components of what they return. The
    objective and the gradient are methods of the engine, so a minimiser
    runs in the same monad. *)
Class Optimizer : Type := {
  fmin_cg : (vec → M float) → vec → (vec → M vec) → float → Z → M (vec * float);
  fmin_powell : (vec → M float) → vec → M (vec * float)
}.

(** ** Covariance functions *)

(** [theta[i]] and [theta[0:n]] for a [theta] that may be [None]. *)
Definition not_subscriptable : exn :=
  TypeError "'NoneType' object is not subscriptable".

Definition theta_item (theta : option vec) (i : Z) : res float :=
  match theta with
  | None => Raise not_subscriptable
  | Some v => Np.getitem v i
  end.

Definition theta_slice (theta : option vec) (n : nat) : res vec :=
  match theta with
  | None => Raise not_subscriptable
  | Some v => Ok (take n v)
  end.

Definition invalid_parameter : exn :=
  ValueError "Invalid covariance function parameter".

(** [get_n_params] *)
Definition n_params (o : covobj) : nat :=
  match o with
  | CovLin _ => 0
  | CovSqExp _ _ => 2
  | CovSqExpARD D _ _ => D + 1
  end.

Module CovLin.

Definition unnecessary : list pyval :=
  [PStr "CovLin: unnecessary hyperparameter specified. Ignoring..."].

(** An ndarray of floats holds no [None], so [theta[0] is not None] is
    true whenever the subscript is evaluated and returns. *)
Definition cov (c : ref) (first_call : bool) (theta : option vec)
    (x : mat) (z : option mat) : M mat :=
  (if first_call then mret tt
   else match theta with
        | None => mret tt
        | Some v =>
            _ ← lift (Np.getitem v 0);
            print unnecessary;;
            store c (CovLin true)
        end);;
  let z := default x z in
  lift (Np.mdot x (Np.transpose z)).

Definition dcov (theta : option vec) (x : mat) (i : Z) : M arr02 :=
  if decide (i = 0%Z) then mret (Zero_d 0%float)
  else mthrow invalid_parameter.

End CovLin.

Module CovSqExp.
Section with_collaborators.
Context `{!MathLib, !PairwiseDistance}.
Local Open Scope float_scope.

(** [self.ell = np.exp(theta[0]); self.sf2 = np.exp(2*theta[1])], for the
    instance behind [c], whose [sf2] was [sf2_old]. *)
Definition set_params (c : ref) (sf2_old : option float) (theta : option vec)
    : M (float * float) :=
  t0 ← lift (theta_item theta 0);
  let ell := np_exp t0 in
  store c (CovSqExp (Some ell) sf2_old);;
  t1 ← lift (theta_item theta 1);
  let sf2 := np_exp (2 * t1) in
  store c (CovSqExp (Some ell) (Some sf2));;
  mret (ell, sf2).

Definition cov (c : ref) (sf2_old : option float) (theta : option vec)
    (x : mat) (z : option mat) : M mat :=
  '(ell, sf2) ← set_params c sf2_old theta;
  let z := default x z in
  R ← lift (squared_dist (Np.mmap (λ a, a / ell) x) (Np.mmap (λ a, a / ell) z));
  mret (Np.mmap (λ r, sf2 * np_exp (- r / 2)) R).

Definition dcov (c : ref) (sf2_old : option float) (theta : option vec)
    (x : mat) (i : Z) : M arr02 :=
  '(ell, sf2) ← set_params c sf2_old theta;
  R ← lift (squared_dist (Np.mmap (λ a, a / ell) x) (Np.mmap (λ a, a / ell) x));
  if decide (i = 0%Z) then
    mret (Two_d (Np.mmap (λ r, sf2 * np_exp (- r / 2) * r) R))
  else if decide (i = 1%Z) then
    mret (Two_d (Np.mmap (λ r, 2 * sf2 * np_exp (- r / 2)) R))
  else mthrow invalid_parameter.

End with_collaborators.
End CovSqExp.

Module CovSqExpARD.
Section with_collaborators.
Context `{!MathLib, !PairwiseDistance}.
Local Open Scope float_scope.

(** [self.ell = np.exp(theta[0:self.D]);
     self.sf2 = np.exp(2*theta[self.D])] *)
Definition set_params (c : ref) (D : nat) (sf2_old : option float)
    (theta : option vec) : M (vec * float) :=
  t ← lift (theta_slice theta D);
  let ell := map np_exp t in
  store c (CovSqExpARD D (Some ell) sf2_old);;
  tD ← lift (theta_item theta (Z.of_nat D));
  let sf2 := np_exp (2 * tD) in
  store c (CovSqExpARD D (Some ell) (Some sf2));;
  mret (ell, sf2).

(** The kernel matrix, with the [self.ell] the call leaves behind. *)
Definition cov_ell (c : ref) (D : nat) (sf2_old : option float)
    (theta : option vec) (x : mat) (z : option mat) : M (mat * vec) :=
  '(ell, sf2) ← set_params c D sf2_old theta;
  let z := default x z in
  let scale := Np.diagflat (map (λ l, 1 / l) ell) in
  xs ← lift (Np.mdot x scale);
  zs ← lift (Np.mdot z scale);
  R ← lift (squared_dist xs zs);
  mret (Np.mmap (λ r, sf2 * np_exp (- r / 2)) R, ell).

Definition cov (c : ref) (D : nat) (sf2_old : option float)
    (theta : option vec) (x : mat) (z : option mat) : M mat :=
  '(K, _) ← cov_ell c D sf2_old theta x z;
  mret K.

Definition dcov (c : ref) (D : nat) (sf2_old : option float)
    (theta : option vec) (x : mat) (i : Z) : M arr02 :=
  '(K, ell) ← cov_ell c D sf2_old theta x None;
  if decide (i < Z.of_nat D)%Z then
    xi ← lift (Np.column x i);
    li ← lift (Np.getitem ell i);
    xi' ← lift (Np.column x i);
    li' ← lift (Np.getitem ell i);
    d ← lift (squared_dist1 (map (λ a, a / li) xi) (map (λ a, a / li') xi'));
    dK ← lift (Np.broadcast2 mul K d);
    mret (Two_d dK)
  else if decide (i = Z.of_nat D) then
    mret (Two_d (Np.mmap (λ k, 2 * k) K))
  else mthrow invalid_parameter.

End with_collaborators.
End CovSqExpARD.

(** *** Construction *)

Definition alloc (o : covobj) : M ref :=
  λ w, let c := fresh (dom (heap w)) in
       (Ok c, mkWorld (self w) (<[c := o]> (heap w)) (stdout w)).

(** [CovLin(x)] *)
Definition new_CovLin : M ref := alloc (CovLin false).

(** [CovSqExp(x)] *)
Definition new_CovSqExp : M ref := alloc (CovSqExp None None).

(** [CovSqExpARD(x)] *)
Definition new_CovSqExpARD (x : option mat) : M ref :=
  match x with
  | None => mthrow (ValueError "N x D data matrix must be supplied as input")
  | Some x => alloc (CovSqExpARD (Np.ncols x) None None)
  end.

(** *** Method dispatch: [covfunc.cov(...)] and [covfunc.dcov(...)] *)

Section dispatch.
Context `{!MathLib, !PairwiseDistance}.

Definition cov (c : ref) (theta : option vec) (x : mat) (z : option mat)
    : M mat :=
  o ← deref "cov" c;
  match o with
  | CovLin first_call => CovLin.cov c first_call theta x z
  | CovSqExp _ sf2 => CovSqExp.cov c sf2 theta x z
  | CovSqExpARD D _ sf2 => CovSqExpARD.cov c D sf2 theta x z
  end.

Definition dcov (c : ref) (theta : option vec) (x : mat) (i : Z) : M arr02 :=
  o ← deref "dcov" c;
  match o with
  | CovLin _ => CovLin.dcov theta x i
  | CovSqExp _ sf2 => CovSqExp.dcov c sf2 theta x i
  | CovSqExpARD D _ sf2 => CovSqExpARD.dcov c D sf2 theta x i
  end.

End dispatch.

(** ** Strings: [str.lower] on ASCII letters *)

Definition lower_ascii (a : ascii) : ascii :=
  let n := nat_of_ascii a in
  if (65 <=? n)%nat && (n <=? 90)%nat then ascii_of_nat (n + 32) else a.

Fixpoint lower (s : string) : string :=
  match s with
  | EmptyString => EmptyString
  | String a s' => String (lower_ascii a) (lower s')
  end.

(** ** Gaussian process regression *)

Definition hasattr {A} (attr : option A) : bool :=
  match attr with
  | Some _ => true
  | None => false
  end.

Module GPR.
Section with_collaborators.
Context `{!MathLib, !Comparison, !LinAlg, !PairwiseDistance, !Optimizer}.
Local Open Scope float_scope.

(** The comparison [hyp == self.hyp] is evaluated first, and may raise;
    the attributes are looked at only when it holds everywhere. *)
Definition _updatepost (hyp : vec) (covfunc : ref) (g : Self.t) : res bool :=
  res_bind (Np.eq_all np_equal_mismatch hyp (Self.hyp g)) (λ hypeq,
    Ok (if hypeq
           && hasattr (Self.alpha g)
           && (hasattr (Self.covfunc g)
               && bool_decide (Some covfunc = Self.covfunc g))
        then false
        else true)).

Definition fresh_notice : list pyval :=
  [PStr "hyperparameters have not changed, using exising posterior"].

Definition failure_warning : list pyval :=
  [PStr "Warning: Estimation of posterior distribution failed"].

(** The first half of the part of [post] below the cache test: [sn2],
    [theta], [self.K], and the argument [self.K + sn2*np.eye(self.N)] that
    [chol] is about to receive. *)
Definition noisy_kernel (hyp : vec) (covfunc : ref) (X : mat) : M mat :=
  h0 ← lift (Np.getitem hyp 0);
  let sn2 := np_exp (2 * h0) in
  let theta := drop 1 hyp in
  g ← get_self;
  (if Self.verbose g
   then print [PStr "estimating posterior ... | hyp="; PVec hyp]
   else mret tt);;
  K ← cov covfunc (Some theta) X None;
  modify_self (Self.set_K K);;
  n ← getattr "N" Self.N;
  lift (Np.broadcast2 add K (Np.mmap (λ e, sn2 * e) (Np.eye n))).

(** The second half: the factor, the solve vector, and the key of the
    cache, stored attribute by attribute. *)
Definition recompute (hyp : vec) (covfunc : ref) (X : mat) (y : vec)
    : M unit :=
  A ← noisy_kernel hyp covfunc X;
  L ← lift (chol A);
  modify_self (Self.set_L L);;
  v ← lift (solve L y);
  a ← lift (solve (Np.transpose L) v);
  modify_self (Self.set_alpha a);;
  modify_self (Self.set_hyp (Vec hyp));;
  modify_self (Self.set_covfunc covfunc).

(** [self.N, self.D = X.shape] *)
Definition set_shape (X : mat) (g : Self.t) : Self.t :=
  Self.set_D (Np.ncols X) (Self.set_N (Np.nrows X) g).

Definition post (hyp : vec) (covfunc : ref) (X : mat) (y : vec) : M unit :=
  modify_self (set_shape X);;
  g ← get_self;
  stale ← lift (_updatepost hyp covfunc g);
  if negb (stale : bool) then print fresh_notice
  else recompute hyp covfunc X y.

(** [try: self.post(...)  except (ValueError, LinAlgError): ...; return v]:
    [Some v] when the handler returned [v] from the method. *)
Definition post_or_return {A} (hyp : vec) (covfunc : ref) (X : mat) (y : vec)
    (handler : M A) : M (option A) :=
  g ← get_self;
  stale ← lift (_updatepost hyp covfunc g);
  if (stale : bool) then
    try_except (post hyp covfunc X y;; mret None)
               (print failure_warning;; v ← handler; mret (Some v))
  else mret (None : option A).

(** The negative log marginal likelihood as the documentation writes it:
    [0.5*y'*alpha + sum(log(diag(L))) + 0.5*N*log(2*pi)], with [ya] the
    product [y'*alpha]. *)
Definition nlZ_formula (ya : float) (L : mat) (n : nat) : float :=
  0.5 * ya + F64.pysum (map np_log (Np.diag L))
  + 0.5 * F64.of_nat n * np_log (2 * F64.pi).

(** The value assigned to [self.nlZ] from the stored posterior. *)
Definition nlZ_value (y : vec) : M float :=
  a ← getattr "alpha" Self.alpha;
  ya ← lift (Np.vdot y a);
  L ← getattr "L" Self.L;
  n ← getattr "N" Self.N;
  mret (0.5 * ya + F64.pysum (map np_log (Np.diag L))
        + 0.5 * F64.of_nat n * np_log (2 * F64.pi)).

Definition loglik (hyp : vec) (covfunc : ref) (X : mat) (y : vec) : M float :=
  r ← post_or_return hyp covfunc X y
        (modify_self (Self.set_nlZ F64.sentinel);; mret F64.sentinel);
  match r with
  | Some v => mret v
  | None =>
      v ← nlZ_value y;
      modify_self (Self.set_nlZ v);;
      (if negb (F64.isfinite v)
       then modify_self (Self.set_nlZ F64.sentinel)
       else mret tt);;
      g ← get_self;
      (if Self.verbose g
       then print [PStr "nlZ= "; PFloat (Self.nlZ g); PStr " | hyp="; PVec hyp]
       else mret tt);;
      mret (Self.nlZ g)
  end.

(** [Q*dK.T] for what [dcov] returned. *)
Definition times_transposed (Q : mat) (dK : arr02) : res mat :=
  match dK with
  | Zero_d d => Ok (Np.mmap (λ q, q * d) Q)
  | Two_d d => Np.broadcast2 mul Q (Np.transpose d)
  end.

(** The body of [for par in range(0, len(theta))], over the indices
    still to visit. *)
Fixpoint dloglik_loop (covfunc : ref) (theta : vec) (X : mat) (Q : mat)
    (pars : list nat) : M unit :=
  match pars with
  | [] => mret tt
  | par :: rest =>
      dK ← dcov covfunc (Some theta) X (Z.of_nat par);
      P ← lift (times_transposed Q dK);
      d ← getattr "dnlZ" Self.dnlZ;
      modify_self (Self.set_dnlZ (<[S par := -0.5 * Np.sum P]> d));;
      dloglik_loop covfunc theta X Q rest
  end.

(** [np.sign(self.dnlZ) / np.finfo(float).eps] *)
Definition signed_sentinel (d : vec) : vec :=
  map (λ x, F64.sign x / F64.eps) d.

Definition dloglik (hyp : vec) (covfunc : ref) (X : mat) (y : vec) : M vec :=
  h0 ← lift (Np.getitem hyp 0);
  let sn2 := np_exp (2 * h0) in
  let theta := drop 1 hyp in
  r ← post_or_return hyp covfunc X y
        (d ← getattr "dnlZ" Self.dnlZ; mret (signed_sentinel d));
  match r with
  | Some v => mret v
  | None =>
      a ← getattr "alpha" Self.alpha;
      L ← getattr "L" Self.L;
      L' ← getattr "L" Self.L;
      n ← getattr "N" Self.N;
      B ← lift (solve2 L' (Np.eye n));
      Kinv ← lift (solve2 (Np.transpose L) B);
      Q ← lift (Np.broadcast2 sub (Np.outer a a) Kinv);
      modify_self (Self.set_dnlZ (Np.zeros (length hyp)));;
      d ← getattr "dnlZ" Self.dnlZ;
      modify_self (Self.set_dnlZ (<[0%nat := - sn2 * Np.trace Q]> d));;
      dloglik_loop covfunc theta X Q (seq 0 (length theta));;
      d ← getattr "dnlZ" Self.dnlZ;
      (if negb (forallb F64.isfinite d)
       then modify_self (Self.set_dnlZ
              (map (λ x, if F64.isfinite x then x else F64.sign x / F64.eps) d))
       else mret tt);;
      g ← get_self;
      (if Self.verbose g
       then d ← getattr "dnlZ" Self.dnlZ;
            print [PStr "dnlZ= "; PVec d; PStr " | hyp="; PVec hyp]
       else mret tt);;
      getattr "dnlZ" Self.dnlZ
  end.

Definition unknown_optimizer : exn := ValueError "unknown optimizer".

Definition estimate (hyp0 : vec) (covfunc : ref) (X : mat) (y : vec)
    (optimizer : string) : M vec :=
  out ← (if String.eqb (lower optimizer) "cg" then
           g ← get_self;
           fmin_cg (λ h, loglik h covfunc X y) hyp0
                   (λ h, dloglik h covfunc X y) (Self.tol g) (Self.n_iter g)
         else if String.eqb (lower optimizer) "powell" then
           fmin_powell (λ h, loglik h covfunc X y) hyp0
         else mthrow unknown_optimizer);
  modify_self (Self.set_hyp (Vec out.1));;
  modify_self (Self.set_nlZ out.2);;
  modify_self (Self.set_optimizer optimizer);;
  mret out.1.

Definition predict (hyp : vec) (X : mat) (y : vec) (Xs : mat)
    : M (vec * mat) :=
  c ← getattr "covfunc" Self.covfunc;
  g ← get_self;
  stale ← lift (_updatepost hyp c g);
  (if (stale : bool) then post hyp c X y else mret tt);;
  h0 ← lift (Np.getitem hyp 0);
  let sn2 := np_exp (2 * h0) in
  let theta := drop 1 hyp in
  c ← getattr "covfunc" Self.covfunc;
  Ks ← cov c (Some theta) Xs (Some X);
  c ← getattr "covfunc" Self.covfunc;
  kss ← cov c (Some theta) Xs None;
  a ← getattr "alpha" Self.alpha;
  ymu ← lift (Np.mvdot Ks a);
  L ← getattr "L" Self.L;
  v ← lift (solve2 L (Np.transpose Ks));
  vv ← lift (Np.mdot (Np.transpose v) v);
  d ← lift (Np.broadcast2 sub kss vv);
  mret (ymu, Np.mmap (λ e, e + sn2) d).

(** [predict] as the class docstring calls it, [predict(hyp, cov, X, y,
    Xs)]: the covariance function is an argument and no [self.covfunc] is
    read. *)
Definition predict_with (hyp : vec) (covfunc : ref) (X : mat) (y : vec)
    (Xs : mat) : M (vec * mat) :=
  g ← get_self;
  stale ← lift (_updatepost hyp covfunc g);
  (if (stale : bool) then post hyp covfunc X y else mret tt);;
  h0 ← lift (Np.getitem hyp 0);
  let sn2 := np_exp (2 * h0) in
  let theta := drop 1 hyp in
  Ks ← cov covfunc (Some theta) Xs (Some X);
  kss ← cov covfunc (Some theta) Xs None;
  a ← getattr "alpha" Self.alpha;
  ymu ← lift (Np.mvdot Ks a);
  L ← getattr "L" Self.L;
  v ← lift (solve2 L (Np.transpose Ks));
  vv ← lift (Np.mdot (Np.transpose v) v);
  d ← lift (Np.broadcast2 sub kss vv);
  mret (ymu, Np.mmap (λ e, e + sn2) d).

(** [GPR(hyp, covfunc, X, y, n_iter, tol, verbose)]: the attributes
    [__init__] assigns before the optional call of [post]. *)
Definition blank (n_iter : Z) (tol : float) (verbose : bool) : Self.t :=
  Self.mk (Scalar nan) nan tol n_iter verbose
          None None None None None None None None.

(** The default [covfunc=None] is no covariance function: a reference to
    nothing in the heap. *)
Definition __init__ (hyp : option vec) (covfunc : option ref)
    (X : option mat) (y : option vec) (n_iter : Z) (tol : float)
    (verbose : bool) : M unit :=
  modify_self (λ _, blank n_iter tol verbose);;
  match hyp, X, y with
  | Some hyp, Some X, Some y =>
      w ← (λ w, (Ok w, w)) : M world;
      post hyp (default (fresh (dom (heap w))) covfunc) X y
  | _, _, _ => mret tt
  end.

End with_collaborators.
End GPR.

(** ** A reference implementation of the collaborators

    Plain list-based numerics on binary64, used to run the methods on
    concrete data. They follow the textbook algorithms, not the rounding
    of LAPACK or libm. *)

Module Reference.

Local Open Scope float_scope.

(** [exp]: a Taylor polynomial at [x/1024], squared ten times. *)
Definition exp_taylor (x : float) : float :=
  fold_right (λ k acc, 1 + x / k * acc) 1
    [1; 2; 3; 4; 5; 6; 7; 8; 9; 10; 11; 12; 13; 14; 15; 16; 17].

Definition exp (x : float) : float :=
  if is_nan x then x
  else if 710 <? x then infinity
  else if x <? -746 then 0
  else Nat.iter 10 (λ v, v * v) (exp_taylor (x / 1024)).

(** [log]: [x = m * 2^e] with [m] near 1, and the series of
    [2 * atanh ((m - 1) / (m + 1))]. *)
Definition ln2 : float := 0x1.62e42fefa39efp-1.

Definition log_series (z : float) : float :=
  let z2 := z * z in
  2 * z * fold_right (λ k acc, 1 / k + z2 * acc) 0
            [1; 3; 5; 7; 9; 11; 13; 15; 17; 19; 21; 23; 25].

Definition log (x : float) : float :=
  if is_nan x then x
  else if x <? 0 then nan
  else if x =? 0 then neg_infinity
  else if x =? infinity then infinity
  else
    let '(m, e) := frshiftexp x in
    let e := of_uint63 e - 2101 in
    let '(m, e) := if m <? 0x1.6a09e667f3bcdp-1 then (2 * m, e - 1) else (m, e) in
    e * ln2 + log_series ((m - 1) / (m + 1)).

Definition math : MathLib := {| np_exp := exp; np_log := log |}.

(** The comparison of NumPy 1.25 and later. *)
Definition comparison : Comparison :=
  {| np_equal_mismatch := Np.RaisesValueError |}.

(** Cholesky factorisation, row by row. *)
Definition chol_offdiag (done : mat) (a : vec) : vec :=
  fold_left
    (λ acc jr, acc ++ [(default 0 (a !! jr.1) - Np.inner acc jr.2)
                       / default 0 (jr.2 !! jr.1)])
    (imap pair done) [].

Fixpoint chol_rows (n : nat) (rows : mat) (done : mat) : res mat :=
  match rows with
  | [] => Ok done
  | a :: rest =>
      let i := length done in
      let off := chol_offdiag done a in
      let d := default 0 (a !! i) - Np.inner off off in
      if 0 <? d
      then chol_rows n rest
             (done ++ [off ++ sqrt d :: replicate (n - i - 1) 0])
      else Raise (LinAlgError "Matrix is not positive definite")
  end.

Definition chol (a : mat) : res mat :=
  if forallb (λ r, (length r =? length a)%nat) a
  then chol_rows (length a) a []
  else Raise (LinAlgError "Last 2 dimensions of the array must be square").

(** Gauss-Jordan elimination with partial pivoting on the rows of
    [[a | b]]. *)
Fixpoint pick_pivot (k : nat) (rows : list vec) : option (vec * list vec) :=
  match rows with
  | [] => None
  | r :: rest =>
      match pick_pivot k rest with
      | None => Some (r, [])
      | Some (p, others) =>
          if abs (default 0 (p !! k)) <? abs (default 0 (r !! k))
          then Some (r, p :: others)
          else Some (p, r :: others)
      end
  end.

Fixpoint eliminate (k n : nat) (done todo : list vec) : res (list vec) :=
  match n with
  | O => Ok done
  | S n' =>
      match pick_pivot k todo with
      | None => Raise (LinAlgError "Singular matrix")
      | Some (p, rest) =>
          let pk := default 0 (p !! k) in
          if pk =? 0 then Raise (LinAlgError "Singular matrix")
          else
            let p' := map (λ x, x / pk) p in
            let elim r :=
              let f := default 0 (r !! k) in
              zip_with (λ x y, x - f * y) r p' in
            eliminate (S k) n' (map elim done ++ [p']) (map elim rest)
      end
  end.

Definition solve2 (a b : mat) : res mat :=
  let n := length a in
  if negb (forallb (λ r, (length r =? n)%nat) a)
  then Raise (LinAlgError "Last 2 dimensions of the array must be square")
  else if negb (length b =? n)%nat
  then Raise (ValueError "solve: mismatch in the core dimensions")
  else res_bind (eliminate 0 n [] (zip_with app a b))
                (λ rows, Ok (map (drop n) rows)).

Definition solve (a : mat) (b : vec) : res vec :=
  res_bind (solve2 a (map (λ x, [x]) b)) (λ m, Ok (map (default 0 ∘ head) m)).

Definition linalg : LinAlg := Build_LinAlg chol solve solve2.

(** Modelled from the spec: [utils.squared_dist] is not in the file; for
    an N x D and an M x D matrix it returns the N x M matrix of squared
    Euclidean distances between their rows. A 1-d array is a column. *)
Definition squared_dist (a b : mat) : res mat :=
  if (Np.ncols a =? Np.ncols b)%nat
  then Ok (map (λ r, map (λ q, Np.fsum (zip_with (λ x y, (x - y) * (x - y)) r q))
                         b) a)
  else Raise (ValueError "Cannot compute distance: vectors have different length").

Definition squared_dist1 (a b : vec) : res mat :=
  squared_dist (map (λ x, [x]) a) (map (λ x, [x]) b).

Definition distance : PairwiseDistance :=
  Build_PairwiseDistance squared_dist squared_dist1.

(** Two small minimisers with the calling convention of [fmin_cg] and
    [fmin_powell]: steepest descent with a fixed step, and one sweep of
    coordinate probes. Both return the best point seen with its value. *)
Fixpoint descend (fuel : nat) (f : vec → M float) (fprime : vec → M vec)
    (gtol : float) (x : vec) (fx : float) : M (vec * float) :=
  match fuel with
  | O => mret (x, fx)
  | S fuel' =>
      g ← fprime x;
      if forallb (λ gi, abs gi <=? gtol) g then mret (x, fx)
      else
        let x' := zip_with (λ xi gi, xi - 0x1p-4 * gi) x g in
        fx' ← f x';
        if fx' <? fx then descend fuel' f fprime gtol x' fx'
        else mret (x, fx)
  end.

Definition fmin_cg (f : vec → M float) (x0 : vec) (fprime : vec → M vec)
    (gtol : float) (maxiter : Z) : M (vec * float) :=
  fx ← f x0;
  descend (Z.to_nat maxiter) f fprime gtol x0 fx.

Fixpoint probe (f : vec → M float) (x : vec) (fx : float) (idx : list nat)
    : M (vec * float) :=
  match idx with
  | [] => mret (x, fx)
  | i :: rest =>
      let x' := alter (λ v, v + 0x1p-1) i x in
      fx' ← f x';
      if fx' <? fx then probe f x' fx' rest else probe f x fx rest
  end.

Definition fmin_powell (f : vec → M float) (x0 : vec) : M (vec * float) :=
  fx ← f x0;
  probe f x0 fx (seq 0 (length x0)).

Definition optimize : Optimizer := Build_Optimizer fmin_cg fmin_powell.

(** An engine as [GPR()] leaves it, in a store with no other object, with
    one [CovLin()], with one [CovSqExp()], and with one [CovSqExpARD(x)]
    for a two-column [x]; the instance is reference 0. *)
Definition fresh_engine : Self.t := GPR.blank 1000 0x1.0624dd2f1a9fcp-10 false.

Definition empty_world : world := mkWorld fresh_engine ∅ [].

Definition lin_world : world :=
  mkWorld fresh_engine {[ 0%nat := CovLin false ]} [].

Definition sqexp_world : world :=
  mkWorld fresh_engine {[ 0%nat := CovSqExp None None ]} [].

Definition ard_world : world :=
  mkWorld fresh_engine {[ 0%nat := CovSqExpARD 2 None None ]} [].

(** The scenario of the documentation: three points on a line. *)
Definition hyp3 : vec := [0; 0; 0].
Definition X3 : mat := [[0]; [1]; [2]].
Definition y3 : vec := [0; 1; 4].

(** Two equal rows and a noise variance that underflows to 0: a singular
    K + sn2*I. *)
Definition hyp_noiseless : vec := [-800; 0; 0].
Definition X_twice : mat := [[0]; [0]].
Definition y_twice : vec := [1; 1].

(** One point with a large target: y'*alpha overflows. *)
Definition X_one : mat := [[0]].
Definition y_huge : vec := [0x1p665].

(** The value of a result that did not raise. *)
Definition value {A} (d : A) (r : res A) : A :=
  match r with
  | Ok a => a
  | Raise _ => d
  end.

End Reference.

(** * The vocabulary of the statements *)

(** A computation respects a relation between the world before and the
    world after, whatever it returns or raises. *)
Definition respects {A} (R : relation world) (c : M A) : Prop :=
  ∀ w r w', c w = (r, w') → R w w'.

(** The engine is untouched: only the heap and the log may differ. *)
Definition same_self : relation world := λ w w', self w' = self w.

(** An attribute (or any view) of the engine is untouched. *)
Definition keeps {X} (view : Self.t → X) : relation world :=
  λ w w', view (self w') = view (self w).

(** A property of the engine, once true, stays true. *)
Definition stays (P : Self.t → Prop) : relation world :=
  λ w w', P (self w) → P (self w').

(** The world once [post] has executed [self.N, self.D = X.shape]. *)
Definition entered (X : mat) (w : world) : world :=
  mkWorld (GPR.set_shape X (self w)) (heap w) (stdout w).

(** The world once a method has printed [args]. *)
Definition printed (args : list pyval) (w : world) : world :=
  mkWorld (self w) (heap w) (stdout w ++ [args]).


(** The world once a method has updated the engine by [f]. *)
Definition updated (f : Self.t → Self.t) (w : world) : world :=
  mkWorld (f (self w)) (heap w) (stdout w).


(** The value [loglik] returns for the documented value [v]. *)
Definition finite_or_sentinel (v : float) : float :=
  if F64.isfinite v then v else F64.sentinel.

(** The world [loglik] leaves when it returns [v] from the stored
    posterior of [w1]. *)
Definition loglik_done (hyp : vec) (v : float) (w1 : world) : world :=
  let w2 := updated (Self.set_nlZ v) w1 in
  if Self.verbose (self w1)
  then printed [PStr "nlZ= "; PFloat v; PStr " | hyp="; PVec hyp] w2
  else w2.

(** Two vectors are element-wise equal: the same length, and [==] holds
    at every position (so a nan equals nothing, itself included). *)
Definition elementwise_equal (a b : vec) : Prop :=
  Forall2 (λ x y, (x =? y)%float = true) a b.

(** What [estimate] stores once the minimiser has returned. *)
Definition estimated (xopt : vec) (fopt : float) (optimizer : string)
    (g : Self.t) : Self.t :=
  Self.set_optimizer optimizer (Self.set_nlZ fopt (Self.set_hyp (Vec xopt) g)).

(** What [dloglik] puts in place of a gradient component [x]. *)
Definition finite_or_signed (x : float) : float :=
  if F64.isfinite x then x else (F64.sign x / F64.eps)%float.

(** The three attributes the cache test reads. *)
Definition cache_key (g : Self.t) : option vec * arr01 * option ref :=
  (Self.alpha g, Self.hyp g, Self.covfunc g).

(** A call stays within the instance [c], whose class has [n] parameters:
    the engine and every other object are as before, and [c] still has [n]
    parameters. *)
Definition local_to (c : ref) (n : nat) : relation world :=
  λ w w',
    self w' = self w
    ∧ (∀ c', c' ≠ c → heap w' !! c' = heap w !! c')
    ∧ (n_params <$> heap w !! c = Some n → n_params <$> heap w' !! c = Some n).

Section vocabulary.
Context `{!MathLib, !Comparison, !LinAlg, !PairwiseDistance}.

(** The indices [dcov] rejects, by class: every index but 0 for [CovLin]
    (which has no parameter), every index outside [0, 2) for [CovSqExp],
    every index above [D] for [CovSqExpARD]. The last two evaluate the
    kernel before they look at the index. *)
Definition rejected_index (c : ref) (o : covobj) (theta : option vec)
    (x : mat) (i : Z) (w : world) : Prop :=
  match o with
  | CovLin _ => i ≠ 0%Z
  | CovSqExp _ _ =>
      ¬ (0 ≤ i < Z.of_nat (n_params o))%Z
      ∧ ∃ K w1, cov c theta x None w = (Ok K, w1)
  | CovSqExpARD _ _ _ =>
      (Z.of_nat (n_params o) ≤ i)%Z
      ∧ ∃ K w1, cov c theta x None w = (Ok K, w1)
  end.

(** The posterior is there for [hyp] and [covfunc]: the cache was valid,
    or [post] ran and returned; [w1] is the world afterwards. *)
Definition ensured (hyp : vec) (c : ref) (X : mat) (y : vec) (w w1 : world)
    : Prop :=
  match GPR._updatepost hyp c (self w) with
  | Ok true => GPR.post hyp c X y w = (Ok (), w1)
  | Ok false => w1 = w
  | Raise _ => False
  end.

(** The inputs on which [loglik] gives up: the factorisation raises
    [LinAlgError], the call of [post] raises one of the two caught
    classes, or the documented value is not finite. *)
Inductive loglik_gives_up (hyp : vec) (c : ref) (X : mat) (y : vec)
    (w : world) : Prop :=
| cholesky_raises A w1 msg :
    GPR._updatepost hyp c (self w) = Ok true →
    GPR.noisy_kernel hyp c X (entered X w) = (Ok A, w1) →
    chol A = Raise (LinAlgError msg) →
    loglik_gives_up hyp c X y w
| post_raises e w1 :
    GPR._updatepost hyp c (self w) = Ok true →
    GPR.post hyp c X y w = (Raise e, w1) →
    caught e = true →
    loglik_gives_up hyp c X y w
| value_not_finite w1 a Lm n ya :
    ensured hyp c X y w w1 →
    Self.alpha (self w1) = Some a →
    Self.L (self w1) = Some Lm →
    Self.N (self w1) = Some n →
    Np.vdot y a = Ok ya →
    F64.isfinite (GPR.nlZ_formula ya Lm n) = false →
    loglik_gives_up hyp c X y w.



End vocabulary.

(** ** Concrete runs with the reference collaborators *)

Section concrete.
Import Reference.
#[local] Existing Instances math comparison linalg distance.
Local Open Scope float_scope.

(** The world after [post(hyp3, covfunc, X3, y3)] on a fresh engine. *)
Definition posted : world := (GPR.post hyp3 0%nat X3 y3 sqexp_world).2.

(** [predict] at one test point, on the posterior of the three points. *)
Definition Xs1 : mat := [[0x1p-1]].
Definition Ks1 : mat := value [] (cov 0%nat (Some [0; 0]) Xs1 (Some X3) posted).1.
Definition kss1 : mat := value [] (cov 0%nat (Some [0; 0]) Xs1 None posted).1.
Definition V1 : mat :=
  value [] (solve2 (default [] (Self.L (self posted))) (Np.transpose Ks1)).
Definition d1 : mat :=
  value [] (Np.broadcast2 sub kss1 (value [] (Np.mdot (Np.transpose V1) V1))).

End concrete.

(** * Properties *)

(** ** Running the monad *)

Section monad_facts.
Context {A B : Type}.
Implicit Types (c : M A) (k : A → M B) (w : world).

Lemma bind_ok c k w a w1 :
  c w = (Ok a, w1) → (c ≫= k) w = k a w1.
Proof. intros Hc. unfold mbind, M_bind. by rewrite Hc. Qed.

Lemma bind_raise c k w e w1 :
  c w = (Raise e, w1) → (c ≫= k) w = (Raise e, w1).
Proof. intros Hc. unfold mbind, M_bind. by rewrite Hc. Qed.

Lemma bind_inv c k w r w2 :
  (c ≫= k) w = (r, w2) →
  (∃ a w1, c w = (Ok a, w1) ∧ k a w1 = (r, w2))
  ∨ (∃ e, c w = (Raise e, w2) ∧ r = Raise e).
Proof.
  unfold mbind, M_bind. destruct (c w) as [[a|e] w1]; intros Hk.
  - left. by exists a, w1.
  - right. exists e. by inversion Hk.
Qed.

End monad_facts.

Lemma bind_inv_ok {A B} (c : M A) (k : A → M B) w b w2 :
  (c ≫= k) w = (Ok b, w2) →
  ∃ a w1, c w = (Ok a, w1) ∧ k a w1 = (Ok b, w2).
Proof.
  intros Hb. apply bind_inv in Hb as [(a & w1 & H1 & H2)|(e & _ & [=])].
  by exists a, w1.
Qed.

Section respects_facts.
Context (R : relation world) `{!PreOrder R}.

Lemma respects_ret {A} (a : A) : respects R (mret a).
Proof. intros w r w' [= _ <-]. reflexivity. Qed.

Lemma respects_throw {A} (e : exn) : respects R (mthrow e : M A).
Proof. intros w r w' [= _ <-]. reflexivity. Qed.

Lemma respects_lift {A} (x : res A) : respects R (lift x).
Proof. intros w r w' [= _ <-]. reflexivity. Qed.

Lemma respects_bind {A B} (c : M A) (k : A → M B) :
  respects R c → (∀ a, respects R (k a)) → respects R (c ≫= k).
Proof.
  intros Hc Hk w r w' Hb.
  destruct (bind_inv _ _ _ _ _ Hb) as [(a & w1 & H1 & H2)|(e & H1 & _)].
  - transitivity w1; [by eapply Hc | by eapply Hk].
  - by eapply Hc.
Qed.

Lemma respects_try {A} (c h : M A) :
  respects R c → respects R h → respects R (try_except c h).
Proof.
  intros Hc Hh w r w'. unfold try_except.
  destruct (c w) as [[a|e] w1] eqn:E.
  - intros [= _ <-]. by eapply Hc.
  - destruct (caught e).
    + intros Hw. transitivity w1; [by eapply Hc | by eapply Hh].
    + intros [= _ <-]. by eapply Hc.
Qed.

Lemma respects_get_self : respects R get_self.
Proof. intros w r w' [= _ <-]. reflexivity. Qed.

Lemma respects_getattr {A} name (field : Self.t → option A) :
  respects R (getattr name field).
Proof.
  intros w r w'. unfold getattr.
  destruct (field (self w)); intros [= _ <-]; reflexivity.
Qed.

Lemma respects_deref name c : respects R (deref name c).
Proof.
  intros w r w'. unfold deref.
  destruct (heap w !! c); intros [= _ <-]; reflexivity.
Qed.

End respects_facts.

Global Instance same_self_preorder : PreOrder same_self.
Proof. split; [done | intros w1 w2 w3 H1 H2; unfold same_self in *; congruence]. Qed.

Global Instance keeps_preorder {X} (view : Self.t → X) : PreOrder (keeps view).
Proof. split; [done | intros w1 w2 w3 H1 H2; unfold keeps in *; congruence]. Qed.

Lemma same_self_keeps {X} (view : Self.t → X) {A} (c : M A) :
  respects same_self c → respects (keeps view) c.
Proof. intros Hc w r w' Hw. unfold keeps. by rewrite (Hc _ _ _ Hw). Qed.

Lemma respects_modify {X} (view : Self.t → X) (f : Self.t → Self.t) :
  (∀ g, view (f g) = view g) → respects (keeps view) (modify_self f).
Proof. intros Hf w r w' [= _ <-]. unfold keeps. cbn. apply Hf. Qed.

Lemma respects_print_self args : respects same_self (print args).
Proof. by intros w r w' [= _ <-]. Qed.

Lemma respects_store_self c o : respects same_self (store c o).
Proof. by intros w r w' [= _ <-]. Qed.

Global Instance stays_preorder (P : Self.t → Prop) : PreOrder (stays P).
Proof.
  split.
  - intros w Hw. exact Hw.
  - intros w1 w2 w3 H1 H2 Hw. exact (H2 (H1 Hw)).
Qed.

Lemma same_self_stays (P : Self.t → Prop) {A} (c : M A) :
  respects same_self c → respects (stays P) c.
Proof. intros Hc w r w' Hw. unfold stays. by rewrite (Hc _ _ _ Hw). Qed.

Lemma respects_modify_stays (P : Self.t → Prop) (f : Self.t → Self.t) :
  (∀ g, P g → P (f g)) → respects (stays P) (modify_self f).
Proof. intros Hf w r w' [= _ <-]. unfold stays. cbn. apply Hf. Qed.

(** Two continuations that agree wherever [P] holds agree after a
    computation under which [P] stays true. *)
Lemma bind_ext_stays {A B} (P : Self.t → Prop) (c : M A) (k1 k2 : A → M B) w :
  respects (stays P) c → P (self w) →
  (∀ a w', P (self w') → k1 a w' = k2 a w') →
  (c ≫= k1) w = (c ≫= k2) w.
Proof.
  intros Hc HP Hk. unfold mbind, M_bind.
  destruct (c w) as [[a|e] w1] eqn:E; [|done].
  apply Hk. by apply (Hc _ _ _ E).
Qed.

(** The primitive operations, each with the relation it is used with. *)
Ltac respects_leaf :=
  first [ apply respects_ret | apply respects_throw | apply respects_lift
        | apply respects_get_self | apply respects_getattr
        | apply respects_deref | apply respects_print_self
        | apply respects_store_self ];
  try typeclasses eauto.

Create HintDb respects discriminated.
#[global] Hint Extern 1 (respects _ _) => respects_leaf : respects.
#[global] Hint Resolve same_self_keeps same_self_stays : respects.

Ltac respects_step :=
  lazymatch goal with
  | |- respects _ (_ ≫= _) => apply respects_bind; [typeclasses eauto | | intros ?]
  | |- respects _ (try_except _ _) => apply respects_try; [typeclasses eauto | | ]
  | |- respects _ (match ?x with _ => _ end) => destruct x
  | |- respects (keeps _) (modify_self _) => apply respects_modify; by intros []
  | |- respects (stays _) (modify_self _) =>
      apply respects_modify_stays; by intros []
  | |- _ => idtac
  end.

Ltac respects_auto :=
  repeat (first [ solve [eauto with respects] | progress respects_step ]).

(** Unfold the primitive operations of the monad. *)
Ltac munfold :=
  unfold mbind, M_bind, mret, M_ret, mthrow, M_throw, lift, getattr, get_self,
    modify_self, print, store, deref.

(** ** Covariance functions *)

Section covariance_properties.
Context `{!MathLib, !PairwiseDistance}.

(** The covariance functions mutate their own instance and print; the
    engine is out of their reach. *)
Lemma cov_same_self c theta x z : respects same_self (cov c theta x z).
Proof.
  unfold cov, CovLin.cov, CovSqExp.cov, CovSqExp.set_params, CovSqExpARD.cov,
    CovSqExpARD.cov_ell, CovSqExpARD.set_params.
  respects_auto.
Qed.

Lemma dcov_same_self c theta x i : respects same_self (dcov c theta x i).
Proof.
  unfold dcov, CovLin.dcov, CovSqExp.dcov, CovSqExp.set_params, CovSqExpARD.dcov,
    CovSqExpARD.cov_ell, CovSqExpARD.set_params.
  respects_auto.
Qed.

(** What [CovLin.cov] does when the subscript [theta[0]] is not reached or
    returns: the product, at most one warning, the engine untouched. *)
Lemma CovLin_cov_product c first_call theta x z w :
  heap w !! c = Some (CovLin first_call) →
  first_call = true ∨ theta ≠ Some [] →
  ∃ w', cov c theta x z w = (Np.mdot x (Np.transpose (default x z)), w')
        ∧ self w' = self w
        ∧ (stdout w' = stdout w
           ∨ stdout w' = stdout w ++ [CovLin.unnecessary]).
Proof.
  intros Hc Hcase. unfold cov, CovLin.cov. munfold. rewrite Hc.
  destruct first_call; [by eauto|].
  destruct theta as [[|t ts]|]; [by destruct Hcase | | by eauto].
  cbn. eauto.
Qed.

(** C8 (the code at the failing input): on an instance that has not yet
    printed its warning, [CovLin.cov] with an empty parameter vector raises
    IndexError at [theta[0]] instead of returning the product X·Zᵗ. *)
Theorem CovLin_cov_empty_theta_raises c x z w :
  heap w !! c = Some (CovLin false) →
  cov c (Some []) x z w = (Raise Np.index_error, w).
Proof. intros Hc. unfold cov, CovLin.cov. munfold. by rewrite Hc. Qed.

(** C7 (amended): [dcov] raises the invalid-parameter error for every
    index other than 0 on the Linear variant, for every index outside
    [0, 2) on the SquaredExponential variant and for every index at or above
    the parameter count D + 1 on the ARD variant, the last two whenever
    [cov(theta, X)] itself returns. *)
Theorem dcov_invalid_index c o theta x i w :
  heap w !! c = Some o →
  rejected_index c o theta x i w →
  ∃ w', dcov c theta x i w = (Raise invalid_parameter, w').
Proof.
  intros Hc Hrej. unfold dcov. rewrite (bind_ok _ _ w o w); [|by unfold deref; rewrite Hc].
  destruct o as [fc|ell sf2|D ell sf2]; cbn in Hrej.
  - unfold CovLin.dcov. rewrite decide_False by done. by eexists.
  - destruct Hrej as [Hi (Km & w1 & Hcov)].
    unfold cov in Hcov. rewrite (bind_ok _ _ w (CovSqExp ell sf2) w) in Hcov;
      [|by unfold deref; rewrite Hc].
    unfold CovSqExp.cov in Hcov. unfold CovSqExp.dcov.
    apply bind_inv in Hcov as [([l s] & w2 & Hp & Hcov)|(e & _ & [=])].
    rewrite (bind_ok _ _ _ _ _ Hp). cbn in Hcov |- *.
    apply bind_inv in Hcov as [(R & w3 & HR & Hcov)|(e & _ & [=])].
    rewrite (bind_ok _ _ _ _ _ HR).
    rewrite !decide_False by lia. by eexists.
  - destruct Hrej as [Hi (Km & w1 & Hcov)].
    unfold cov in Hcov. rewrite (bind_ok _ _ w (CovSqExpARD D ell sf2) w) in Hcov;
      [|by unfold deref; rewrite Hc].
    unfold CovSqExpARD.cov in Hcov. unfold CovSqExpARD.dcov.
    apply bind_inv in Hcov as [([Km' l] & w2 & Hp & Hcov)|(e & _ & [=])].
    rewrite (bind_ok _ _ _ _ _ Hp). cbn in Hi |- *.
    rewrite !decide_False by lia. by eexists.
Qed.

End covariance_properties.

#[global] Hint Resolve cov_same_self dcov_same_self : respects.

(** ** The regression engine *)

Section engine_properties.
Context `{!MathLib, !Comparison, !LinAlg, !PairwiseDistance}.

Lemma updatepost_set_shape hyp c X g :
  GPR._updatepost hyp c (GPR.set_shape X g) = GPR._updatepost hyp c g.
Proof. by destruct g. Qed.

(** [post] on a valid cache: the shape and one line of output. *)
Lemma post_fresh hyp c X y w :
  GPR._updatepost hyp c (self w) = Ok false →
  GPR.post hyp c X y w = (Ok (), printed GPR.fresh_notice (entered X w)).
Proof.
  intros Hv. unfold GPR.post. munfold. cbn.
  by rewrite updatepost_set_shape, Hv.
Qed.

(** [post] on an invalid cache: the posterior is computed. *)
Lemma post_stale hyp c X y w :
  GPR._updatepost hyp c (self w) = Ok true →
  GPR.post hyp c X y w = GPR.recompute hyp c X y (entered X w).
Proof.
  intros Hv. unfold GPR.post. munfold. cbn.
  by rewrite updatepost_set_shape, Hv.
Qed.

(** [post] when the comparison of the cache test raises: the shape is all
    that is stored. *)
Lemma post_test_raises hyp c X y w e :
  GPR._updatepost hyp c (self w) = Raise e →
  GPR.post hyp c X y w = (Raise e, entered X w).
Proof.
  intros Hv. unfold GPR.post. munfold. cbn.
  by rewrite updatepost_set_shape, Hv.
Qed.

(** A successful recomputation, step by step. *)
Lemma recompute_ok hyp c X y w w' :
  GPR.recompute hyp c X y w = (Ok (), w') →
  ∃ A Lm v a w1,
    GPR.noisy_kernel hyp c X w = (Ok A, w1)
    ∧ chol A = Ok Lm ∧ solve Lm y = Ok v
    ∧ solve (Np.transpose Lm) v = Ok a
    ∧ w' = updated (λ g, Self.set_covfunc c (Self.set_hyp (Vec hyp)
                           (Self.set_alpha a (Self.set_L Lm g)))) w1.
Proof.
  unfold GPR.recompute. intros Hr.
  apply bind_inv in Hr as [(A & w1 & HA & Hr)|(e & _ & [=])].
  revert Hr. munfold.
  destruct (chol A) as [Lm|e] eqn:HL; [|done].
  destruct (solve Lm y) as [v|e] eqn:Hv; [|done].
  destruct (solve (Np.transpose Lm) v) as [a|e] eqn:Ha; [|done].
  cbn. intros [= <-]. by exists A, Lm, v, a, w1.
Qed.

(** When the factorisation raises, so does the recomputation, with the
    same exception. *)
Lemma recompute_chol_raises hyp c X y w A w1 e :
  GPR.noisy_kernel hyp c X w = (Ok A, w1) →
  chol A = Raise e →
  GPR.recompute hyp c X y w = (Raise e, w1).
Proof.
  intros HA He. unfold GPR.recompute.
  rewrite (bind_ok _ _ _ _ _ HA). munfold. by rewrite He.
Qed.

Lemma noisy_kernel_keeps_nlZ hyp c X :
  respects (keeps Self.nlZ) (GPR.noisy_kernel hyp c X).
Proof.
  unfold GPR.noisy_kernel. respects_auto.
Qed.

(** C5: when [post] is called directly, reaches the factorisation (the
    cache is not valid for [hyp] and [covfunc]) and [chol] raises on
    [K + sn2*I], [post] raises that very exception; no sentinel is stored
    in [self.nlZ]. *)
Theorem post_propagates_decomposition_error hyp c X y w A w1 e :
  GPR._updatepost hyp c (self w) = Ok true →
  GPR.noisy_kernel hyp c X (entered X w) = (Ok A, w1) →
  chol A = Raise e →
  GPR.post hyp c X y w = (Raise e, w1)
  ∧ Self.nlZ (self w1) = Self.nlZ (self w).
Proof.
  intros Hv HA He. split.
  - rewrite post_stale by done. by eapply recompute_chol_raises.
  - apply noisy_kernel_keeps_nlZ in HA. unfold keeps in HA. rewrite HA.
    by destruct w as [[]].
Qed.

(** *** The guarded call of [post] in [loglik] and [dloglik] *)

Lemma post_or_return_ensured {A} hyp c X y (h : M A) w w1 :
  ensured hyp c X y w w1 →
  GPR.post_or_return hyp c X y h w = (Ok None, w1).
Proof.
  unfold ensured, GPR.post_or_return, try_except. munfold.
  destruct (GPR._updatepost hyp c (self w)) as [[]|]; [| |done]; by intros ->.
Qed.

Lemma post_or_return_caught {A} hyp c X y (h : M A) w e w1 :
  GPR._updatepost hyp c (self w) = Ok true →
  GPR.post hyp c X y w = (Raise e, w1) →
  caught e = true →
  GPR.post_or_return hyp c X y h w
  = (v ← h; mret (Some v)) (printed GPR.failure_warning w1).
Proof.
  intros Hv Hp He. unfold GPR.post_or_return, try_except. munfold.
  by rewrite Hv, Hp, He.
Qed.

(** *** [loglik] *)

Lemma loglik_from_posterior hyp c X y w w1 a Lm n ya :
  ensured hyp c X y w w1 →
  Self.alpha (self w1) = Some a →
  Self.L (self w1) = Some Lm →
  Self.N (self w1) = Some n →
  Np.vdot y a = Ok ya →
  GPR.loglik hyp c X y w
  = (Ok (finite_or_sentinel (GPR.nlZ_formula ya Lm n)),
     loglik_done hyp (finite_or_sentinel (GPR.nlZ_formula ya Lm n)) w1).
Proof.
  intros He Ha HL HN Hya. unfold GPR.loglik.
  rewrite (bind_ok _ _ _ _ _ (post_or_return_ensured _ _ _ _ _ _ _ He)).
  unfold GPR.nlZ_value. munfold. rewrite Ha, Hya, HL, HN.
  fold (GPR.nlZ_formula ya Lm n).
  unfold loglik_done, finite_or_sentinel, updated, printed.
  destruct w1 as [[] ? ?]; cbn.
  by destruct (F64.isfinite _), verbose.
Qed.

Lemma loglik_post_raises hyp c X y w e w1 :
  GPR._updatepost hyp c (self w) = Ok true →
  GPR.post hyp c X y w = (Raise e, w1) →
  caught e = true →
  GPR.loglik hyp c X y w
  = (Ok F64.sentinel,
     updated (Self.set_nlZ F64.sentinel) (printed GPR.failure_warning w1)).
Proof.
  intros Hv Hp He. unfold GPR.loglik.
  rewrite (bind_ok _ _ _ (Some F64.sentinel)
             (updated (Self.set_nlZ F64.sentinel)
                      (printed GPR.failure_warning w1))); [done|].
  by rewrite (post_or_return_caught _ _ _ _ _ _ _ _ Hv Hp He).
Qed.

Lemma noisy_kernel_keeps_N hyp c X :
  respects (keeps Self.N) (GPR.noisy_kernel hyp c X).
Proof.
  unfold GPR.noisy_kernel. respects_auto.
Qed.

(** C1 (amended): once the posterior is there (the Cholesky factorisation
    and the solves of [post] returned, or the cache was valid), [loglik]
    returns 0.5*y'*alpha + sum(log(diag(L))) + 0.5*N*log(2*pi), computed
    from the stored [L], [alpha] and [N], when that value is finite, and
    1/eps when it is not; the returned value is also stored in
    [self.nlZ]. When [post] ran, the stored [L] is the factor of
    K + sn2*I, the stored [alpha] the solve vector and [N] the number of
    rows of [X]. *)
Theorem loglik_returns_formula_when_finite hyp c X y w w1 a Lm n ya :
  ensured hyp c X y w w1 →
  Self.alpha (self w1) = Some a →
  Self.L (self w1) = Some Lm →
  Self.N (self w1) = Some n →
  Np.vdot y a = Ok ya →
  (∃ w2,
     GPR.loglik hyp c X y w
     = (Ok (if F64.isfinite (GPR.nlZ_formula ya Lm n)
            then GPR.nlZ_formula ya Lm n else F64.sentinel), w2)
     ∧ Self.nlZ (self w2)
       = (if F64.isfinite (GPR.nlZ_formula ya Lm n)
          then GPR.nlZ_formula ya Lm n else F64.sentinel))
  ∧ (GPR._updatepost hyp c (self w) = Ok true →
     n = Np.nrows X
     ∧ ∃ A v w0,
         GPR.noisy_kernel hyp c X (entered X w) = (Ok A, w0)
         ∧ chol A = Ok Lm ∧ solve Lm y = Ok v
         ∧ solve (Np.transpose Lm) v = Ok a).
Proof.
  intros He Ha HL HN Hya. split.
  - eexists. split.
    + by eapply loglik_from_posterior.
    + unfold loglik_done. by destruct (Self.verbose _).
  - intros Hv. unfold ensured in He. rewrite Hv in He.
    rewrite post_stale in He by done.
    apply recompute_ok in He as (A & L' & v & a' & w0 & HA & HL' & Hs & Ha' & ->).
    cbn in Ha, HL, HN. injection Ha as <-. injection HL as <-.
    pose proof (noisy_kernel_keeps_N _ _ _ _ _ _ HA) as HN0.
    unfold keeps in HN0. rewrite HN0 in HN. cbn in HN. injection HN as <-.
    split; [done|]. by exists A, v, w0.
Qed.

(** C2: when the posterior computation inside [loglik] fails (the Cholesky
    step raises, or [post] raises a ValueError or LinAlgError), or when the
    computed nlZ is not finite, [loglik] does not raise: it returns 1/eps
    and stores it in [self.nlZ]; 1/eps is the finite number 2^52. *)
Theorem loglik_sentinel hyp c X y w :
  loglik_gives_up hyp c X y w →
  (∃ w2, GPR.loglik hyp c X y w = (Ok F64.sentinel, w2)
         ∧ Self.nlZ (self w2) = F64.sentinel)
  ∧ F64.isfinite F64.sentinel = true
  ∧ F64.sentinel = 4503599627370496%float.
Proof.
  intros Hg. split; [|by vm_compute].
  destruct Hg as [A w1 msg Hv HA He|e w1 Hv Hp He|w1 a Lm n ya He Ha HL HN Hya Hf].
  - eexists. split.
    + apply loglik_post_raises with (e := LinAlgError msg); [done| |done].
      rewrite post_stale by done. by eapply recompute_chol_raises.
    + done.
  - eexists. split; [by eapply loglik_post_raises|done].
  - eexists. split.
    + erewrite loglik_from_posterior by done.
      unfold finite_or_sentinel. by rewrite Hf.
    + unfold loglik_done. by destruct (Self.verbose _).
Qed.

(** *** [dloglik] *)

Lemma getitem_head (h : float) (t : vec) : Np.getitem (h :: t) 0 = Ok h.
Proof.
  unfold Np.getitem, Np.pyindex. rewrite decide_True; [done|].
  cbn [length]. lia.
Qed.

Lemma post_keeps_dnlZ hyp c X y :
  respects (keeps Self.dnlZ) (GPR.post hyp c X y).
Proof.
  unfold GPR.post, GPR.recompute, GPR.noisy_kernel.
  respects_auto.
Qed.

(** What [dloglik] does when the call of [post] raises one of the two
    caught classes: the handler reads [self.dnlZ]. *)
Lemma dloglik_post_raises hyp c X y w e w1 :
  hyp ≠ [] →
  GPR._updatepost hyp c (self w) = Ok true →
  GPR.post hyp c X y w = (Raise e, w1) →
  caught e = true →
  GPR.dloglik hyp c X y w
  = (match Self.dnlZ (self w) with
     | Some d => Ok (GPR.signed_sentinel d)
     | None => Raise (AttributeError "dnlZ")
     end, printed GPR.failure_warning w1).
Proof.
  intros Hne Hv Hp He. destruct hyp as [|h0 t]; [done|].
  unfold GPR.dloglik.
  rewrite (bind_ok _ _ w h0 w) by (unfold lift; by rewrite getitem_head).
  pose proof (post_keeps_dnlZ _ _ _ _ _ _ _ Hp) as Hd. unfold keeps in Hd.
  pose proof (post_or_return_caught (h0 :: t) c X y
                (d ← getattr "dnlZ" Self.dnlZ; mret (GPR.signed_sentinel d))
                w e w1 Hv Hp He) as Hr.
  destruct (Self.dnlZ (self w)) as [d|] eqn:E.
  - rewrite (bind_ok _ _ w (Some (GPR.signed_sentinel d))
               (printed GPR.failure_warning w1)); [done|].
    rewrite Hr. munfold. cbn. by rewrite Hd.
  - rewrite (bind_raise _ _ w (AttributeError "dnlZ")
               (printed GPR.failure_warning w1)); [done|].
    rewrite Hr. munfold. cbn. by rewrite Hd.
Qed.

(** C6 (the code at the failing input): when [post] fails inside
    [dloglik] on an engine that has not yet computed a gradient,
    [self.dnlZ] does not exist and [dloglik] raises AttributeError instead
    of returning a vector of signed sentinels. *)
Theorem dloglik_without_previous_gradient hyp c X y w e w1 :
  hyp ≠ [] →
  GPR._updatepost hyp c (self w) = Ok true →
  GPR.post hyp c X y w = (Raise e, w1) →
  caught e = true →
  Self.dnlZ (self w) = None →
  GPR.dloglik hyp c X y w
  = (Raise (AttributeError "dnlZ"), printed GPR.failure_warning w1).
Proof.
  intros Hne Hv Hp He Hd.
  rewrite (dloglik_post_raises _ _ _ _ _ _ _ Hne Hv Hp He). by rewrite Hd.
Qed.

(** With a gradient from an earlier evaluation, the same failure returns
    its signs over eps. *)
Lemma dloglik_with_previous_gradient hyp c X y w e w1 d :
  hyp ≠ [] →
  GPR._updatepost hyp c (self w) = Ok true →
  GPR.post hyp c X y w = (Raise e, w1) →
  caught e = true →
  Self.dnlZ (self w) = Some d →
  GPR.dloglik hyp c X y w
  = (Ok (GPR.signed_sentinel d), printed GPR.failure_warning w1).
Proof.
  intros Hne Hv Hp He Hd.
  rewrite (dloglik_post_raises _ _ _ _ _ _ _ Hne Hv Hp He). by rewrite Hd.
Qed.

(** *** [predict] *)

Lemma post_stays_covfunc hyp c X y :
  respects (stays (λ g, Self.covfunc g = Some c)) (GPR.post hyp c X y).
Proof.
  unfold GPR.post, GPR.recompute, GPR.noisy_kernel.
  respects_auto.
Qed.

Lemma getattr_some {A B} name (field : Self.t → option A) (k : A → M B) a w :
  field (self w) = Some a → (getattr name field ≫= k) w = k a w.
Proof. intros Hf. apply bind_ok. unfold getattr. by rewrite Hf. Qed.

Lemma getattr_none {A B} name (field : Self.t → option A) (k : A → M B) w :
  field (self w) = None →
  (getattr name field ≫= k) w = (Raise (AttributeError name), w).
Proof. intros Hf. apply bind_raise. unfold getattr. by rewrite Hf. Qed.

(** With a stored covariance function, [predict] is the method of the
    docstring applied to it: none of its three reads of [self.covfunc]
    fails. *)
Lemma predict_reads_stored_covfunc hyp X y Xs c w :
  Self.covfunc (self w) = Some c →
  GPR.predict hyp X y Xs w = GPR.predict_with hyp c X y Xs w.
Proof.
  intros Hc. unfold GPR.predict, GPR.predict_with.
  rewrite (getattr_some _ _ _ c) by done.
  apply (bind_ext_stays (λ g, Self.covfunc g = Some c)); [respects_auto|done|].
  intros g w1 Hc1; cbn beta.
  apply (bind_ext_stays (λ g, Self.covfunc g = Some c)); [respects_auto|done|].
  intros stale w1' Hc1'; cbn beta.
  apply (bind_ext_stays (λ g, Self.covfunc g = Some c)); [|done|].
  { destruct stale; [apply post_stays_covfunc|respects_auto]. }
  intros _ w2 Hc2; cbn beta.
  apply (bind_ext_stays (λ g, Self.covfunc g = Some c)); [respects_auto|done|].
  intros h0 w3 Hc3; cbn beta zeta.
  rewrite (getattr_some _ _ _ c) by done.
  apply (bind_ext_stays (λ g, Self.covfunc g = Some c)); [|done|].
  { respects_auto. }
  intros Ks w4 Hc4; cbn beta.
  by rewrite (getattr_some _ _ _ c).
Qed.

Lemma diag_from_mmap (f : float → float) (m : mat) (i : nat) :
  Np.diag_from i (Np.mmap f m) = map f (Np.diag_from i m).
Proof.
  revert i. induction m as [|r m IH]; intros i; [done|].
  cbn. rewrite list_lookup_fmap. destruct (r !! i); cbn; [|done].
  by rewrite <- IH.
Qed.

(** C3: with a stored covariance function [c] and a posterior that is
    valid for [hyp] and [c], [predict] returns the mean Ks·alpha and the
    variance kss − VᵗV + sn2 as a matrix of the shape of kss − VᵗV, whose
    diagonal is diag(kss − VᵗV) + sn2, where Ks = cov(theta, Xs, X),
    kss = cov(theta, Xs), V = solve(L, Ksᵗ), for the stored L and alpha. *)
Theorem predict_mean_and_variance hyp X y Xs w c a Lm h0 Ks w1 kss w2 ymu V VV d :
  Self.covfunc (self w) = Some c →
  GPR._updatepost hyp c (self w) = Ok false →
  Self.alpha (self w) = Some a →
  Self.L (self w) = Some Lm →
  Np.getitem hyp 0 = Ok h0 →
  cov c (Some (drop 1 hyp)) Xs (Some X) w = (Ok Ks, w1) →
  cov c (Some (drop 1 hyp)) Xs None w1 = (Ok kss, w2) →
  Np.mvdot Ks a = Ok ymu →
  solve2 Lm (Np.transpose Ks) = Ok V →
  Np.mdot (Np.transpose V) V = Ok VV →
  Np.broadcast2 sub kss VV = Ok d →
  GPR.predict hyp X y Xs w
  = (Ok (ymu, Np.mmap (λ e, e + np_exp (2 * h0))%float d), w2)
  ∧ Np.diag (Np.mmap (λ e, e + np_exp (2 * h0))%float d)
    = map (λ e, e + np_exp (2 * h0))%float (Np.diag d)
  ∧ Forall2 (λ r r', length r = length r')
      (Np.mmap (λ e, e + np_exp (2 * h0))%float d) d.
Proof.
  intros Hc Hv Ha HL Hh HKs Hkss Hmu HV HVV Hd. split; [|split].
  - rewrite (predict_reads_stored_covfunc _ _ _ _ _ _ Hc).
    unfold GPR.predict_with.
    pose proof (cov_same_self _ _ _ _ _ _ _ HKs) as E1.
    pose proof (cov_same_self _ _ _ _ _ _ _ Hkss) as E2.
    unfold same_self in E1, E2.
    rewrite (bind_ok _ _ w (self w) w) by done.
    rewrite (bind_ok _ _ w false w) by (unfold lift; by rewrite Hv).
    rewrite (bind_ok _ _ w () w) by done.
    rewrite (bind_ok _ _ w h0 w) by (unfold lift; by rewrite Hh).
    cbn zeta.
    rewrite (bind_ok _ _ _ _ _ HKs), (bind_ok _ _ _ _ _ Hkss).
    rewrite getattr_some with (a := a) by (by rewrite E2, E1).
    rewrite (bind_ok _ _ w2 ymu w2) by (unfold lift; by rewrite Hmu).
    rewrite getattr_some with (a := Lm) by (by rewrite E2, E1).
    rewrite (bind_ok _ _ w2 V w2) by (unfold lift; by rewrite HV).
    rewrite (bind_ok _ _ w2 VV w2) by (unfold lift; by rewrite HVV).
    rewrite (bind_ok _ _ w2 d w2) by (unfold lift; by rewrite Hd).
    done.
  - apply diag_from_mmap.
  - unfold Np.mmap. apply Forall2_fmap_l, Forall2_same_length_lookup_2; [done|].
    intros i r r' Hr Hr'. rewrite Hr in Hr'. injection Hr' as <-.
    cbn. by rewrite length_map.
Qed.

Lemma updatepost_false hyp c g :
  GPR._updatepost hyp c g = Ok false →
  Np.eq_all np_equal_mismatch hyp (Self.hyp g) = Ok true
  ∧ is_Some (Self.alpha g) ∧ Self.covfunc g = Some c.
Proof.
  unfold GPR._updatepost.
  destruct (Np.eq_all _ hyp (Self.hyp g)) as [[]|]; cbn; [|done|done].
  destruct (Self.alpha g); [|done].
  destruct (Self.covfunc g) as [c'|]; [|done]. cbn.
  case_bool_decide as Hc; [|done]. intros _. by inversion Hc.
Qed.

(** After a call of [post] that returned, the covariance function it was
    given is the stored one. *)
Lemma post_ok_covfunc hyp c X y w w' :
  GPR.post hyp c X y w = (Ok (), w') → Self.covfunc (self w') = Some c.
Proof.
  intros Hp. destruct (GPR._updatepost hyp c (self w)) as [[]|e] eqn:Hv.
  - rewrite post_stale in Hp by done.
    apply recompute_ok in Hp as (A & Lm & v & a & w1 & _ & _ & _ & _ & ->).
    done.
  - rewrite post_fresh in Hp by done. injection Hp as <-.
    apply updatepost_false in Hv as (_ & _ & Hc).
    cbn. by destruct (self w).
  - by rewrite (post_test_raises _ _ _ _ _ _ Hv) in Hp.
Qed.

(** C10: [predict] reads [self.covfunc]. On an engine that has none (as
    [GPR()] leaves it, before any [post]) it raises AttributeError and
    returns no prediction; after one call of [post] that returned with the
    covariance function [c], [c] is stored and every read of
    [self.covfunc] in [predict] returns it. *)
Theorem predict_needs_stored_covfunc hyp X y Xs w :
  (Self.covfunc (self w) = None →
   GPR.predict hyp X y Xs w = (Raise (AttributeError "covfunc"), w))
  ∧ (∀ covfunc n_iter tol verbose w0,
       GPR.__init__ None covfunc None None n_iter tol verbose w0 = (Ok (), w) →
       GPR.predict hyp X y Xs w = (Raise (AttributeError "covfunc"), w))
  ∧ (∀ hyp0 c X0 y0 w0,
       GPR.post hyp0 c X0 y0 w0 = (Ok (), w) →
       Self.covfunc (self w) = Some c
       ∧ GPR.predict hyp X y Xs w = GPR.predict_with hyp c X y Xs w).
Proof.
  split; [|split].
  - intros Hc. unfold GPR.predict. by apply getattr_none.
  - intros covfunc n_iter tol verbose w0 [= <-].
    unfold GPR.predict. by apply getattr_none.
  - intros hyp0 c X0 y0 w0 Hp.
    pose proof (post_ok_covfunc _ _ _ _ _ _ Hp) as Hc.
    split; [done|]. by apply predict_reads_stored_covfunc.
Qed.

(** *** The posterior cache *)

Lemma stretch_length {A} (l : list A) : Np.stretch (length l) l = l.
Proof. by destruct l as [|x [|]]. Qed.

Lemma forallb_zip_eqb (a b : vec) :
  length a = length b →
  forallb id (zip_with PrimFloat.eqb a b) = true ↔ elementwise_equal a b.
Proof.
  revert b. induction a as [|x a IH]; intros [|y b] Hlen; try done.
  - split; [constructor|done].
  - cbn in Hlen. injection Hlen as Hlen. cbn.
    rewrite andb_true_iff, (IH b Hlen). unfold id, elementwise_equal. split.
    + intros [Hx Hab]. by constructor.
    + intros Hab. by inversion Hab.
Qed.

Lemma eq_all_same_length m (a b : vec) :
  length a = length b →
  Np.eq_all m a (Vec b) = Ok true ↔ elementwise_equal a b.
Proof.
  intros Hlen. unfold Np.eq_all, Np.broadcast1, Np.bshape.
  rewrite Hlen, Nat.eqb_refl. rewrite <- Hlen at 1.
  rewrite !stretch_length, <- (forallb_zip_eqb _ _ Hlen).
  split; [by intros [= ->]|by intros ->].
Qed.

Lemma updatepost_true_iff hyp c g :
  GPR._updatepost hyp c g = Ok false ↔
  Np.eq_all np_equal_mismatch hyp (Self.hyp g) = Ok true
  ∧ is_Some (Self.alpha g) ∧ Self.covfunc g = Some c.
Proof.
  split; [apply updatepost_false|].
  intros (He & [a Ha] & Hc). unfold GPR._updatepost.
  rewrite He, Ha, Hc. cbn. by rewrite bool_decide_eq_true_2.
Qed.



Lemma post_or_return_raises {A} hyp c X y (h : M A) w e w1 :
  GPR._updatepost hyp c (self w) = Ok true →
  GPR.post hyp c X y w = (Raise e, w1) →
  caught e = false →
  GPR.post_or_return hyp c X y h w = (Raise e, w1).
Proof.
  intros Hv Hp He. unfold GPR.post_or_return, try_except. munfold.
  by rewrite Hv, Hp, He.
Qed.












End engine_properties.

(** *** [estimate] *)

Section estimate_properties.
Context `{!MathLib, !Comparison, !LinAlg, !PairwiseDistance, !Optimizer}.

(** C9 (amended): [estimate] compares the lower-cased optimizer kind. When
    it is "cg", the result of [fmin_cg] on [loglik], [dloglik], the stored
    tolerance and iteration cap is what [estimate] returns (the optimized
    hyp) and stores (hyp, objective value, and the kind as given); when it
    is "powell", likewise with [fmin_powell] on [loglik]; an exception of
    the minimiser propagates. For every other kind [estimate] raises the
    unknown-optimizer error at once, the engine unchanged. *)
Theorem estimate_by_kind hyp0 c X y optimizer w :
  (lower optimizer = "cg"%string →
   ∀ r w1,
     fmin_cg (λ h, GPR.loglik h c X y) hyp0 (λ h, GPR.dloglik h c X y)
             (Self.tol (self w)) (Self.n_iter (self w)) w = (r, w1) →
     GPR.estimate hyp0 c X y optimizer w
     = match r with
       | Ok out => (Ok out.1, updated (estimated out.1 out.2 optimizer) w1)
       | Raise e => (Raise e, w1)
       end)
  ∧ (lower optimizer = "powell"%string →
     ∀ r w1,
       fmin_powell (λ h, GPR.loglik h c X y) hyp0 w = (r, w1) →
       GPR.estimate hyp0 c X y optimizer w
       = match r with
         | Ok out => (Ok out.1, updated (estimated out.1 out.2 optimizer) w1)
         | Raise e => (Raise e, w1)
         end)
  ∧ (lower optimizer ≠ "cg"%string → lower optimizer ≠ "powell"%string →
     GPR.estimate hyp0 c X y optimizer w = (Raise GPR.unknown_optimizer, w)).
Proof.
  unfold GPR.estimate. split; [|split].
  - intros Hk r w1 Hf. rewrite Hk. cbn [String.eqb Ascii.eqb Bool.eqb].
    destruct r as [out|e].
    + erewrite bind_ok; [done|]. by rewrite (bind_ok _ _ w (self w) w).
    + apply bind_raise. by rewrite (bind_ok _ _ w (self w) w).
  - intros Hk r w1 Hf. rewrite Hk. cbn [String.eqb Ascii.eqb Bool.eqb].
    destruct r as [out|e].
    + by erewrite bind_ok.
    + by apply bind_raise.
  - intros Hcg Hpow.
    apply String.eqb_neq in Hcg, Hpow. by rewrite Hcg, Hpow.
Qed.

End estimate_properties.

(** ** Further properties of the code *)

(** Two continuations that agree on what [c] returns agree after [c]. *)
Lemma bind_ext_on {A B} (c : M A) (k1 k2 : A → M B) w :
  (∀ a w1, c w = (Ok a, w1) → k1 a w1 = k2 a w1) →
  (c ≫= k1) w = (c ≫= k2) w.
Proof.
  intros Hk. unfold mbind, M_bind.
  destruct (c w) as [[a|e] w1] eqn:E; [by apply Hk|done].
Qed.

Section further_properties.
Context `{!MathLib, !Comparison, !LinAlg, !PairwiseDistance}.

(** *** [loglik] *)

Lemma post_or_return_some {A} hyp c X y (h : M A) w v w1 :
  GPR.post_or_return hyp c X y h w = (Ok (Some v), w1) →
  ∃ e w0,
    GPR.post hyp c X y w = (Raise e, w0) ∧ caught e = true
    ∧ h (printed GPR.failure_warning w0) = (Ok v, w1).
Proof.
  unfold GPR.post_or_return, try_except. munfold.
  destruct (GPR._updatepost hyp c (self w)) as [[]|]; [|done|done].
  destruct (GPR.post hyp c X y w) as [[[]|e] w0]; [done|].
  destruct (caught e) eqn:He; [|done].
  fold (printed GPR.failure_warning w0).
  destruct (h (printed GPR.failure_warning w0)) as [[v'|e'] w2] eqn:Hh; [|done].
  intros [= <- <-]. by exists e, w0.
Qed.

Lemma post_or_return_none {A} hyp c X y (h : M A) w w1 :
  GPR.post_or_return hyp c X y h w = (Ok None, w1) →
  ensured hyp c X y w w1.
Proof.
  unfold GPR.post_or_return, try_except, ensured. munfold.
  destruct (GPR._updatepost hyp c (self w)) as [[]|]; [|by intros [= <-]|done].
  destruct (GPR.post hyp c X y w) as [[[]|e] w0]; [by intros [= <-]|].
  destruct (caught e); [|done].
  destruct (h _) as [[v'|e'] w2]; done.
Qed.

(** X1: whatever path it takes, a value [loglik] returns is finite, and it
    is the value left in [self.nlZ]. *)
Theorem loglik_returns_finite_stored hyp c X y w v w' :
  GPR.loglik hyp c X y w = (Ok v, w') →
  F64.isfinite v = true ∧ Self.nlZ (self w') = v.
Proof.
  unfold GPR.loglik. intros Hl.
  apply bind_inv_ok in Hl as ([v0|] & w1 & Hr & Hl).
  - apply post_or_return_some in Hr as (e & w0 & _ & _ & Hh).
    injection Hl as <- <-. injection Hh as <- <-. by vm_compute.
  - apply bind_inv_ok in Hl as (v0 & w2 & _ & Hl).
    revert Hl. munfold. cbn.
    destruct (F64.isfinite v0) eqn:Hf; cbn;
      destruct (Self.verbose (self w2)); cbn; intros [= <- <-]; cbn;
      by (split; [first [exact Hf|by vm_compute]|]).
Qed.

(** *** [dloglik] *)

(** The loop writes the entries 1, 2, ... of [self.dnlZ]: its length and
    its entry 0 are as before. *)
Lemma dloglik_loop_shape c theta X Q pars w w' d :
  GPR.dloglik_loop c theta X Q pars w = (Ok (), w') →
  Self.dnlZ (self w) = Some d →
  ∃ d', Self.dnlZ (self w') = Some d'
        ∧ length d' = length d ∧ d' !! 0%nat = d !! 0%nat.
Proof.
  revert w d. induction pars as [|par pars IH]; intros w d; cbn [GPR.dloglik_loop].
  - intros [= <-] Hd. by exists d.
  - intros Hl Hd.
    apply bind_inv_ok in Hl as (dK & w1 & HdK & Hl).
    apply dcov_same_self in HdK. unfold same_self in HdK.
    apply bind_inv_ok in Hl as (P & w2 & [= HP <-] & Hl).
    rewrite (getattr_some _ _ _ d) in Hl by (by rewrite HdK).
    apply bind_inv_ok in Hl as ([] & w3 & [= <-] & Hl).
    destruct (IH _ _ Hl eq_refl) as (d' & Hd' & Hlen & Hz).
    exists d'. split; [done|]. rewrite Hlen, Hz.
    split; [apply length_insert|by apply list_lookup_insert_ne].
Qed.

Lemma map_finite_or_signed (d : vec) :
  (if negb (forallb F64.isfinite d)
   then map (λ x, if F64.isfinite x then x else (F64.sign x / F64.eps)%float) d
   else d)
  = map finite_or_signed d.
Proof.
  destruct (forallb F64.isfinite d) eqn:Hall; cbn; [|done].
  induction d as [|x d IH]; [done|].
  cbn in Hall. apply andb_true_iff in Hall as [Hx Hd].
  cbn. unfold finite_or_signed at 1. rewrite Hx. by rewrite <- IH.
Qed.

(** X2: when [dloglik] computes the gradient (the posterior was valid,
    or [post] returned), the vector it returns has one entry per
    hyperparameter and is the one left in [self.dnlZ]; its entry 0 is
    -sn2*trace(Q) for Q = alpha*alpha' - solve(L', solve(L, I)), replaced
    by its sign over eps when it is not finite. *)
Theorem dloglik_gradient_shape hyp c X y w w1 d w' :
  ensured hyp c X y w w1 →
  GPR.dloglik hyp c X y w = (Ok d, w') →
  length d = length hyp
  ∧ Self.dnlZ (self w') = Some d
  ∧ ∃ h0 a Lm n B Kinv Q,
      Np.getitem hyp 0 = Ok h0
      ∧ Self.alpha (self w1) = Some a ∧ Self.L (self w1) = Some Lm
      ∧ Self.N (self w1) = Some n
      ∧ solve2 Lm (Np.eye n) = Ok B
      ∧ solve2 (Np.transpose Lm) B = Ok Kinv
      ∧ Np.broadcast2 sub (Np.outer a a) Kinv = Ok Q
      ∧ d !! 0%nat
        = Some (finite_or_signed (- np_exp (2 * h0) * Np.trace Q)%float).
Proof.
  intros He Hl. unfold GPR.dloglik in Hl.
  apply bind_inv_ok in Hl as (h0 & w0 & [= Hh <-] & Hl). cbn zeta in Hl.
  rewrite (bind_ok _ _ _ _ _ (post_or_return_ensured _ _ _ _ _ _ _ He)) in Hl.
  destruct (Self.alpha (self w1)) as [a|] eqn:Ha;
    [rewrite (getattr_some _ _ _ a) in Hl by done
    |by rewrite getattr_none in Hl].
  destruct (Self.L (self w1)) as [Lm|] eqn:HL;
    [rewrite !(getattr_some _ _ _ Lm) in Hl by done
    |by rewrite getattr_none in Hl].
  destruct (Self.N (self w1)) as [n|] eqn:HN;
    [rewrite (getattr_some _ _ _ n) in Hl by done
    |by rewrite getattr_none in Hl].
  apply bind_inv_ok in Hl as (B & w2 & [= HB <-] & Hl).
  apply bind_inv_ok in Hl as (Kinv & w2 & [= HK <-] & Hl).
  apply bind_inv_ok in Hl as (Q & w2 & [= HQ <-] & Hl).
  apply bind_inv_ok in Hl as ([] & w2 & [= <-] & Hl).
  rewrite (getattr_some _ _ _ (Np.zeros (length hyp))) in Hl by done.
  apply bind_inv_ok in Hl as ([] & w2 & [= <-] & Hl).
  apply bind_inv_ok in Hl as ([] & w3 & Hloop & Hl).
  destruct (dloglik_loop_shape _ _ _ _ _ _ _ _ Hloop eq_refl)
    as (d3 & Hd3 & Hlen & Hz).
  rewrite (getattr_some _ _ _ d3) in Hl by done.
  assert (Hhyp : (0 < length hyp)%nat).
  { destruct hyp; [done|cbn; lia]. }
  assert (Hd : d = map finite_or_signed d3
               ∧ Self.dnlZ (self w') = Some (map finite_or_signed d3)).
  { rewrite <- map_finite_or_signed. revert Hl. munfold. cbn.
    destruct (forallb F64.isfinite d3); cbn;
      destruct (Self.verbose (self w3)) eqn:Hv; cbn;
      rewrite ?Hd3; cbn; rewrite ?Hd3; intros [= <- <-]; by cbn. }
  destruct Hd as [-> Hst].
  split; [|split; [done|]].
  - rewrite length_map, Hlen. unfold Np.zeros.
    etrans; [apply length_insert|apply length_replicate].
  - exists h0, a, Lm, n, B, Kinv, Q. repeat (split; [done|]).
    change (map finite_or_signed d3) with (finite_or_signed <$> d3).
    unfold vec. rewrite list_lookup_fmap. fold vec. rewrite Hz.
    assert (Hi : <[0%nat:=(- np_exp (2 * h0) * Np.trace Q)%float]>
                   (Np.zeros (length hyp)) !! 0%nat
                 = Some (- np_exp (2 * h0) * Np.trace Q)%float);
      [|by rewrite Hi].
    apply list_lookup_insert_eq. unfold Np.zeros.
    by rewrite length_replicate.
Qed.

(** *** [post] and the cache *)

Lemma noisy_kernel_keeps_key hyp c X :
  respects (keeps cache_key) (GPR.noisy_kernel hyp c X).
Proof. unfold GPR.noisy_kernel. respects_auto. Qed.

Lemma updatepost_key hyp c g g' :
  cache_key g' = cache_key g →
  GPR._updatepost hyp c g' = GPR._updatepost hyp c g.
Proof.
  unfold cache_key, GPR._updatepost. by intros [= -> -> ->].
Qed.

(** X3: a call of [post] that raises, wherever it raises, leaves
    [self.alpha], [self.hyp] and [self.covfunc] as they were, so the cache
    test answers as before the call for every hyp and covariance
    function. *)
Theorem failed_post_keeps_cache_key hyp c X y w e w' :
  GPR.post hyp c X y w = (Raise e, w') →
  cache_key (self w') = cache_key (self w)
  ∧ ∀ hyp' c', GPR._updatepost hyp' c' (self w')
               = GPR._updatepost hyp' c' (self w).
Proof.
  intros Hp.
  assert (cache_key (self w') = cache_key (self w)) as Hk;
    [|split; [done|intros; by apply updatepost_key]].
  destruct (GPR._updatepost hyp c (self w)) as [[]|e'] eqn:Hv;
    [|by rewrite post_fresh in Hp
     |rewrite (post_test_raises _ _ _ _ _ _ Hv) in Hp; injection Hp as _ <-;
      by destruct w as [[] ? ?]].
  rewrite post_stale in Hp by done. unfold GPR.recompute in Hp.
  assert (cache_key (self (entered X w)) = cache_key (self w)) as He
    by (by destruct w as [[] ? ?]).
  apply bind_inv in Hp as [(A & w1 & HA & Hp)|(e' & HA & _)].
  - apply noisy_kernel_keeps_key in HA. unfold keeps in HA.
    rewrite <- He, <- HA. revert Hp. munfold.
    destruct (chol A) as [Lm|]; [|by intros [= _ <-]]. cbn.
    destruct (solve Lm y) as [v|]; [|intros [= _ <-]; by destruct (self w1)].
    destruct (solve (Np.transpose Lm) v) as [a|];
      [done|intros [= _ <-]; by destruct (self w1)].
  - apply noisy_kernel_keeps_key in HA. unfold keeps in HA.
    by rewrite <- He, <- HA.
Qed.

(** X4: on a valid cache [loglik] never looks at [X]: with the same hyp,
    covariance function and targets it returns the same value and leaves
    the same state for any two data matrices. *)
Theorem loglik_valid_cache_ignores_X hyp c X X' y w :
  GPR._updatepost hyp c (self w) = Ok false →
  GPR.loglik hyp c X y w = GPR.loglik hyp c X' y w.
Proof.
  intros Hv. unfold GPR.loglik.
  assert (∀ X0, ensured hyp c X0 y w w) as He
    by (intros X0; unfold ensured; by rewrite Hv).
  by rewrite !(bind_ok _ _ _ _ _ (post_or_return_ensured _ _ _ _ _ _ _ (He _))).
Qed.

(** X5: an empty hyp has no noise term. When the cache test returns True
    for it (the comparison with the stored hyp did not raise, and the
    cache is invalid), [post] and [loglik] raise IndexError at [hyp[0]],
    after [self.N] and [self.D] have been set and before anything else is;
    [dloglik] raises it before it tests the cache. The error is not one
    [loglik] turns into the sentinel. *)
Theorem empty_hyp_raises c X y w :
  GPR._updatepost [] c (self w) = Ok true →
  GPR.post [] c X y w = (Raise Np.index_error, entered X w)
  ∧ GPR.loglik [] c X y w = (Raise Np.index_error, entered X w)
  ∧ GPR.dloglik [] c X y w = (Raise Np.index_error, w).
Proof.
  intros Hv.
  assert (GPR.post [] c X y w = (Raise Np.index_error, entered X w)) as Hp.
  { by rewrite post_stale. }
  split; [done|]. split; [|done].
  unfold GPR.loglik. apply bind_raise. by apply post_or_return_raises.
Qed.

Lemma uncaught_errors_propagate_aux hyp c X y w e w1 :
  GPR._updatepost hyp c (self w) = Ok true →
  GPR.post hyp c X y w = (Raise e, w1) →
  caught e = false →
  GPR.loglik hyp c X y w = (Raise e, w1)
  ∧ (hyp ≠ [] → GPR.dloglik hyp c X y w = (Raise e, w1)).
Proof.
  intros Hv Hp He. split.
  - unfold GPR.loglik. apply bind_raise. by apply post_or_return_raises.
  - intros Hne. destruct hyp as [|h0 t]; [done|]. unfold GPR.dloglik.
    rewrite (bind_ok _ _ w h0 w) by (unfold lift; by rewrite getitem_head).
    apply bind_raise. by apply post_or_return_raises.
Qed.

(** X6: an exception of [post] that is neither a ValueError nor a
    LinAlgError passes through the handlers of [loglik] and [dloglik]
    unchanged: no warning is printed, no sentinel is stored or returned. *)
Theorem uncaught_errors_propagate hyp c X y w e w1 :
  GPR._updatepost hyp c (self w) = Ok true →
  GPR.post hyp c X y w = (Raise e, w1) →
  caught e = false →
  GPR.loglik hyp c X y w = (Raise e, w1)
  ∧ (hyp ≠ [] → GPR.dloglik hyp c X y w = (Raise e, w1)).
Proof. apply uncaught_errors_propagate_aux. Qed.

(** X7: the squared exponential needs two parameters. With a hyp of one
    or two entries [CovSqExp.cov] raises IndexError at [theta[0]] or
    [theta[1]], and so do [post], [loglik] and [dloglik] when the cache
    test returns True for that hyp (the comparison with the stored hyp did
    not raise, and the cache is invalid): the wrong length is then
    reported as an IndexError, not as the sentinel. *)
Theorem short_hyp_raises_IndexError c ell sf2 h0 rest X y w :
  heap w !! c = Some (CovSqExp ell sf2) →
  (length rest < 2)%nat →
  GPR._updatepost (h0 :: rest) c (self w) = Ok true →
  ∃ w1,
    GPR.post (h0 :: rest) c X y w = (Raise Np.index_error, w1)
    ∧ GPR.loglik (h0 :: rest) c X y w = (Raise Np.index_error, w1)
    ∧ GPR.dloglik (h0 :: rest) c X y w = (Raise Np.index_error, w1).
Proof.
  intros Hc Hlen Hv.
  assert (∃ w1, GPR.post (h0 :: rest) c X y w = (Raise Np.index_error, w1))
    as [w1 Hp].
  { rewrite post_stale by done.
    unfold GPR.recompute, GPR.noisy_kernel, cov, CovSqExp.cov,
      CovSqExp.set_params, theta_item.
    munfold. rewrite getitem_head.
    destruct rest as [|t [|t' rest]]; cbn in Hlen; [| |lia];
      cbn; destruct (Self.verbose (self w)); cbn; rewrite Hc; cbn;
      by eexists. }
  exists w1. split; [done|].
  destruct (uncaught_errors_propagate_aux (h0 :: rest) c X y w _ w1 Hv Hp eq_refl)
    as [Hl Hd].
  split; [done|]. by apply Hd.
Qed.

(** X17: the comparison of the cache test is made outside every [try].
    When it raises, which it does on hyp vectors whose lengths do not
    broadcast under NumPy 1.25 and later, the exception is the ValueError
    of the comparison; [post] raises it once it has set [self.N] and
    [self.D]; [loglik], [dloglik] (on a non-empty hyp) and [predict] (on
    the stored covariance function) raise it and leave the state as it
    was. Although a ValueError, it is not turned into the sentinel and no
    warning is printed. *)
Theorem cache_test_error_propagates hyp c X y w e :
  GPR._updatepost hyp c (self w) = Raise e →
  (e = Np.broadcast_error ∧ caught e = true
   ∧ np_equal_mismatch = Np.RaisesValueError
   ∧ ∃ stored, Self.hyp (self w) = Vec stored
               ∧ Np.bshape (length hyp) (length stored) = None)
  ∧ GPR.post hyp c X y w = (Raise e, entered X w)
  ∧ GPR.loglik hyp c X y w = (Raise e, w)
  ∧ (hyp ≠ [] → GPR.dloglik hyp c X y w = (Raise e, w))
  ∧ (Self.covfunc (self w) = Some c →
     ∀ Xs, GPR.predict hyp X y Xs w = (Raise e, w)).
Proof.
  intros Hv. split; [|split; [|split; [|split]]].
  - revert Hv. unfold GPR._updatepost, Np.eq_all, Np.broadcast1.
    destruct (Self.hyp (self w)) as [x|stored]; [done|].
    destruct (Np.bshape (length hyp) (length stored)) eqn:Hn; [done|].
    destruct np_equal_mismatch; [done|].
    intros [= <-]. repeat (split; [done|]). by exists stored.
  - by apply post_test_raises.
  - unfold GPR.loglik, GPR.post_or_return. munfold. by rewrite Hv.
  - intros Hne. destruct hyp as [|h0 t]; [done|].
    unfold GPR.dloglik, GPR.post_or_return. munfold.
    rewrite getitem_head. cbn. by rewrite Hv.
  - intros Hc Xs. rewrite (predict_reads_stored_covfunc _ _ _ _ _ _ Hc).
    unfold GPR.predict_with. munfold. by rewrite Hv.
Qed.

(** *** Covariance functions *)

Lemma pyindex_wrap (n : nat) (i : Z) :
  (- Z.of_nat n ≤ i < 0)%Z →
  Np.pyindex n i = Np.pyindex n (i + Z.of_nat n).
Proof.
  intros Hi. unfold Np.pyindex.
  rewrite (decide_False (P := (0 ≤ i < Z.of_nat n)%Z)) by lia.
  rewrite (decide_True (P := (- Z.of_nat n ≤ i < 0)%Z)) by lia.
  rewrite (decide_True (P := (0 ≤ i + Z.of_nat n < Z.of_nat n)%Z)) by lia.
  f_equal. lia.
Qed.

Lemma getitem_ok_lt (v : vec) (n : nat) (x : float) :
  Np.getitem v (Z.of_nat n) = Ok x → (n < length v)%nat.
Proof.
  unfold Np.getitem, Np.pyindex.
  destruct (decide (0 ≤ Z.of_nat n < Z.of_nat (length v))%Z); [lia|].
  by rewrite decide_False by lia.
Qed.

Lemma ARD_set_params_length c D s theta l sf w w1 :
  CovSqExpARD.set_params c D s theta w = (Ok (l, sf), w1) → length l = D.
Proof.
  unfold CovSqExpARD.set_params. intros Hs.
  apply bind_inv_ok in Hs as (t & w2 & [= Ht <-] & Hs). cbn zeta in Hs.
  apply bind_inv_ok in Hs as ([] & w2 & _ & Hs).
  apply bind_inv_ok in Hs as (tD & w3 & [= HtD <-] & Hs).
  apply bind_inv_ok in Hs as ([] & w3 & _ & Hs).
  injection Hs as <- _ _.
  destruct theta as [v|]; [|done]. injection Ht as <-.
  apply getitem_ok_lt in HtD. rewrite length_map, length_take. lia.
Qed.

Lemma ARD_cov_ell_length c D s theta x z K l w w1 :
  CovSqExpARD.cov_ell c D s theta x z w = (Ok (K, l), w1) → length l = D.
Proof.
  unfold CovSqExpARD.cov_ell. intros Hc.
  apply bind_inv_ok in Hc as ([l0 sf] & w2 & Hs & Hc).
  apply ARD_set_params_length in Hs.
  apply bind_inv_ok in Hc as (xs & w3 & _ & Hc).
  apply bind_inv_ok in Hc as (zs & w4 & _ & Hc).
  apply bind_inv_ok in Hc as (R & w5 & _ & Hc).
  by injection Hc as _ <- _.
Qed.

(** X8: [CovSqExpARD.dcov] has no lower bound on the index. For a data
    matrix with D columns, an index i in [-D, -1] is not rejected: the
    subscripts [x[:, i]] and [self.ell[i]] count from the end, and the call
    does exactly what it does for the index i + D. *)
Theorem dcov_ARD_negative_index_wraps c D ell sf2 theta x i w :
  heap w !! c = Some (CovSqExpARD D ell sf2) →
  Np.ncols x = D →
  (- Z.of_nat D ≤ i < 0)%Z →
  dcov c theta x i w = dcov c theta x (i + Z.of_nat D) w.
Proof.
  intros Hc Hx Hi. unfold dcov.
  rewrite !(bind_ok _ _ w (CovSqExpARD D ell sf2) w)
    by (unfold deref; by rewrite Hc).
  unfold CovSqExpARD.dcov. apply bind_ext_on. intros [K l] w1 Hce.
  apply ARD_cov_ell_length in Hce.
  rewrite !decide_True by lia.
  assert (Np.column x i = Np.column x (i + Z.of_nat D)) as ->.
  { unfold Np.column. rewrite Hx. by rewrite pyindex_wrap. }
  assert (Np.getitem l i = Np.getitem l (i + Z.of_nat D)) as ->.
  { unfold Np.getitem. rewrite Hce. by rewrite pyindex_wrap. }
  done.
Qed.

(** X9: for the ARD variant the derivative with respect to the last
    parameter (index D, the signal variance) is twice the kernel matrix
    that [cov(theta, x)] returns, and the call leaves the instance as that
    [cov] call leaves it. *)
Theorem dcov_ARD_signal_variance c D ell sf2 theta x K w w1 :
  heap w !! c = Some (CovSqExpARD D ell sf2) →
  cov c theta x None w = (Ok K, w1) →
  dcov c theta x (Z.of_nat D) w
  = (Ok (Two_d (Np.mmap (λ k, 2 * k)%float K)), w1).
Proof.
  intros Hc Hcov. unfold cov in Hcov. unfold dcov.
  rewrite (bind_ok _ _ w (CovSqExpARD D ell sf2) w) in Hcov
    by (unfold deref; by rewrite Hc).
  rewrite (bind_ok _ _ w (CovSqExpARD D ell sf2) w)
    by (unfold deref; by rewrite Hc).
  unfold CovSqExpARD.cov in Hcov. unfold CovSqExpARD.dcov.
  apply bind_inv_ok in Hcov as ([K' l] & w2 & Hce & [= <- <-]).
  rewrite (bind_ok _ _ _ _ _ Hce).
  rewrite decide_False by lia. by rewrite decide_True.
Qed.

Lemma zip_mul_map (f : float → float) (r : list float) :
  zip_with mul (map f r) r = map (λ x, f x * x)%float r.
Proof. induction r as [|x r IH]; [done|]. cbn. by rewrite IH. Qed.

Lemma zip_mul_mmap (f : float → float) (R : mat) :
  zip_with (zip_with mul) (Np.mmap f R) R = Np.mmap (λ x, f x * x)%float R.
Proof.
  unfold Np.mmap. induction R as [|r R IH]; [done|].
  cbn. by rewrite zip_mul_map, IH.
Qed.

(** X10: for the squared exponential the derivative with respect to the
    first parameter (the length scale) is the kernel matrix times the
    matrix of squared distances, entry by entry: K ⊙ R with
    K = cov(theta, x) and R = squared_dist(x/ell, x/ell),
    ell = exp(theta[0]). *)
Theorem dcov_SqExp_lengthscale c ell sf2 theta x K w w1 :
  heap w !! c = Some (CovSqExp ell sf2) →
  cov c theta x None w = (Ok K, w1) →
  ∃ t0 R,
    theta_item theta 0 = Ok t0
    ∧ squared_dist (Np.mmap (λ a, a / np_exp t0)%float x)
                   (Np.mmap (λ a, a / np_exp t0)%float x) = Ok R
    ∧ dcov c theta x 0 w = (Ok (Two_d (zip_with (zip_with mul) K R)), w1).
Proof.
  intros Hc Hcov. unfold cov in Hcov. unfold dcov.
  rewrite (bind_ok _ _ w (CovSqExp ell sf2) w) in Hcov
    by (unfold deref; by rewrite Hc).
  rewrite (bind_ok _ _ w (CovSqExp ell sf2) w)
    by (unfold deref; by rewrite Hc).
  unfold CovSqExp.cov in Hcov. unfold CovSqExp.dcov.
  apply bind_inv_ok in Hcov as ([l s] & w2 & Hp & Hcov).
  rewrite (bind_ok _ _ _ _ _ Hp).
  apply bind_inv_ok in Hcov as (R & w3 & [= HR <-] & [= <- <-]).
  assert (∃ t0, theta_item theta 0 = Ok t0 ∧ l = np_exp t0) as (t0 & Ht0 & ->).
  { unfold CovSqExp.set_params in Hp.
    apply bind_inv_ok in Hp as (t0 & w4 & [= Ht0 <-] & Hp). cbn zeta in Hp.
    apply bind_inv_ok in Hp as ([] & w4 & _ & Hp).
    apply bind_inv_ok in Hp as (t1 & w5 & _ & Hp).
    apply bind_inv_ok in Hp as ([] & w6 & _ & Hp).
    injection Hp as <- _ _. by exists t0. }
  exists t0, R. split; [done|]. split; [done|].
  cbn in HR |- *. rewrite (bind_ok _ _ w2 R w2) by (unfold lift; by rewrite HR).
  rewrite decide_True by done. by rewrite zip_mul_mmap.
Qed.

(** X11: a [CovLin] instance prints its warning once. The first call with
    a non-empty [theta] returns the product, prints the warning and sets
    [first_call]; from then on every call, whatever its [theta] (the empty
    one included), returns the product and changes nothing. *)
Theorem CovLin_warns_once c t ts x z w :
  heap w !! c = Some (CovLin false) →
  ∃ w1,
    cov c (Some (t :: ts)) x z w
    = (Np.mdot x (Np.transpose (default x z)), w1)
    ∧ stdout w1 = stdout w ++ [CovLin.unnecessary]
    ∧ heap w1 !! c = Some (CovLin true)
    ∧ ∀ theta' x' z',
        cov c theta' x' z' w1
        = (Np.mdot x' (Np.transpose (default x' z')), w1).
Proof.
  intros Hc. eexists. split; [|split; [|split]].
  - unfold cov, CovLin.cov. munfold. rewrite Hc, getitem_head. cbn. done.
  - done.
  - cbn. apply lookup_insert_eq.
  - intros theta' x' z'. unfold cov, CovLin.cov. munfold. cbn.
    by rewrite lookup_insert_eq.
Qed.

Global Instance local_to_preorder c n : PreOrder (local_to c n).
Proof.
  split.
  - by intros w.
  - intros w1 w2 w3 (Hs1 & Ho1 & Hn1) (Hs2 & Ho2 & Hn2). split; [|split].
    + by rewrite Hs2.
    + intros c' Hc'. by rewrite Ho2, Ho1.
    + auto.
Qed.

Lemma respects_print_local c n args : respects (local_to c n) (print args).
Proof. by intros w r w' [= _ <-]. Qed.

Lemma respects_store_local c n o :
  n_params o = n → respects (local_to c n) (store c o).
Proof.
  intros Hn w r w' [= _ <-]. split; [done|]. split.
  - intros c' Hc'. cbn. by rewrite lookup_insert_ne.
  - intros _. cbn. by rewrite lookup_insert_eq, <- Hn.
Qed.

Ltac local_auto :=
  repeat first
    [ apply respects_print_local
    | apply respects_store_local; reflexivity
    | solve [eauto with respects]
    | progress respects_step ].

(** X12: a call of [cov] or [dcov] stays within its own instance: the
    engine's attributes and every other object are untouched, whether the
    call returns or raises, and the instance keeps its class's number of
    parameters. *)
Theorem covariance_calls_are_local c o theta x z i w :
  heap w !! c = Some o →
  (∀ r w', cov c theta x z w = (r, w') →
     self w' = self w
     ∧ (∀ c', c' ≠ c → heap w' !! c' = heap w !! c')
     ∧ n_params <$> heap w' !! c = Some (n_params o))
  ∧ (∀ r w', dcov c theta x i w = (r, w') →
       self w' = self w
       ∧ (∀ c', c' ≠ c → heap w' !! c' = heap w !! c')
       ∧ n_params <$> heap w' !! c = Some (n_params o)).
Proof.
  intros Hc.
  assert (n_params <$> heap w !! c = Some (n_params o)) as Hn by (by rewrite Hc).
  split; intros r w' Hr.
  - enough (local_to c (n_params o) w w') as (? & ? & Hk) by (by split; auto).
    unfold cov in Hr.
    rewrite (bind_ok _ _ w o w) in Hr by (unfold deref; by rewrite Hc).
    refine ((_ : respects (local_to c (n_params o)) _) _ _ _ Hr).
    destruct o; unfold CovLin.cov, CovSqExp.cov, CovSqExp.set_params,
      CovSqExpARD.cov, CovSqExpARD.cov_ell, CovSqExpARD.set_params;
      local_auto.
  - enough (local_to c (n_params o) w w') as (? & ? & Hk) by (by split; auto).
    unfold dcov in Hr.
    rewrite (bind_ok _ _ w o w) in Hr by (unfold deref; by rewrite Hc).
    refine ((_ : respects (local_to c (n_params o)) _) _ _ _ Hr).
    destruct o; unfold CovLin.dcov, CovSqExp.dcov, CovSqExp.set_params,
      CovSqExpARD.dcov, CovSqExpARD.cov_ell, CovSqExpARD.set_params;
      local_auto.
Qed.

(** X13: the cache is keyed on the identity of the covariance function.
    A newly constructed instance, of whatever class, is an object that did
    not exist before; it differs from the stored one, so the cache is
    never reported valid for it, with any hyp: whenever the comparison of
    the hyp vectors returns, the cache test answers that the posterior
    must be recomputed. The construction itself touches neither the engine
    nor the stored instance. *)
Theorem new_instance_invalidates_cache (ctor : M ref) c c0 hyp w w' :
  ctor = new_CovLin ∨ ctor = new_CovSqExp ∨ (∃ x, ctor = new_CovSqExpARD x) →
  ctor w = (Ok c, w') →
  Self.covfunc (self w) = Some c0 →
  is_Some (heap w !! c0) →
  heap w !! c = None ∧ is_Some (heap w' !! c)
  ∧ self w' = self w ∧ heap w' !! c0 = heap w !! c0
  ∧ GPR._updatepost hyp c (self w') ≠ Ok false
  ∧ (∀ hypeq, Np.eq_all np_equal_mismatch hyp (Self.hyp (self w)) = Ok hypeq →
              GPR._updatepost hyp c (self w') = Ok true).
Proof.
  intros Hctor Hnew Hc0 Hlive.
  assert (∃ o, alloc o w = (Ok c, w')) as [o Ha].
  { destruct Hctor as [->|[->|[[x|] ->]]]; [by eexists..|done]. }
  unfold alloc in Ha. injection Ha as <- <-.
  assert (heap w !! fresh (dom (heap w)) = None) as Hfresh.
  { apply not_elem_of_dom, is_fresh. }
  assert (fresh (dom (heap w)) ≠ c0) as Hne.
  { intros Heq. rewrite Heq in Hfresh. rewrite Hfresh in Hlive.
    by destruct Hlive. }
  split; [done|]. split; [cbn; by rewrite lookup_insert_eq|].
  split; [done|]. split; [cbn; by rewrite lookup_insert_ne|].
  cbn. unfold GPR._updatepost. rewrite Hc0. cbn.
  rewrite bool_decide_eq_false_2 by congruence.
  destruct (Np.eq_all _ hyp (Self.hyp (self w))) as [hypeq|e]; cbn;
    rewrite ?andb_false_r; [|by split].
  split; [done|]. by intros.
Qed.

(** After a [post] that returned, the cache is valid for its arguments,
    provided hyp equals itself (no nan). *)
Lemma post_ok_valid hyp c X y w w1 :
  GPR.post hyp c X y w = (Ok (), w1) →
  elementwise_equal hyp hyp →
  GPR._updatepost hyp c (self w1) = Ok false.
Proof.
  intros Hp Hself. destruct (GPR._updatepost hyp c (self w)) as [[]|e] eqn:Hv.
  - rewrite post_stale in Hp by done.
    apply recompute_ok in Hp as (A & Lm & v & a & w2 & _ & _ & _ & _ & ->).
    apply updatepost_true_iff. cbn.
    split; [by apply eq_all_same_length|]. by split; [eexists|].
  - rewrite post_fresh in Hp by done. injection Hp as <-.
    cbn. by rewrite updatepost_set_shape.
  - by rewrite (post_test_raises _ _ _ _ _ _ Hv) in Hp.
Qed.

(** X14: calling [post] before [loglik], [dloglik] or [predict] changes
    nothing: on an invalid cache, when [post] returns (for a hyp without
    nan), each of the three methods run after it returns what it returns,
    and leaves the state it leaves, when run alone. *)
Theorem explicit_post_is_redundant hyp c X y w w1 :
  GPR._updatepost hyp c (self w) = Ok true →
  GPR.post hyp c X y w = (Ok (), w1) →
  elementwise_equal hyp hyp →
  GPR.loglik hyp c X y w1 = GPR.loglik hyp c X y w
  ∧ GPR.dloglik hyp c X y w1 = GPR.dloglik hyp c X y w
  ∧ (Self.covfunc (self w) = Some c →
     ∀ Xs, GPR.predict hyp X y Xs w1 = GPR.predict hyp X y Xs w).
Proof.
  intros Hv Hp Hself.
  pose proof (post_ok_valid _ _ _ _ _ _ Hp Hself) as Hv1.
  assert (ensured hyp c X y w w1) as He by (unfold ensured; by rewrite Hv).
  assert (ensured hyp c X y w1 w1) as He1 by (unfold ensured; by rewrite Hv1).
  split; [|split].
  - unfold GPR.loglik.
    by rewrite (bind_ok _ _ _ _ _ (post_or_return_ensured _ _ _ _ _ _ _ He)),
      (bind_ok _ _ _ _ _ (post_or_return_ensured _ _ _ _ _ _ _ He1)).
  - destruct hyp as [|h0 t]; [by rewrite post_stale in Hp|].
    unfold GPR.dloglik.
    rewrite (bind_ok _ _ w1 h0 w1), (bind_ok _ _ w h0 w)
      by (unfold lift; by rewrite getitem_head).
    cbn zeta.
    by rewrite (bind_ok _ _ _ _ _ (post_or_return_ensured _ _ _ _ _ _ _ He)),
      (bind_ok _ _ _ _ _ (post_or_return_ensured _ _ _ _ _ _ _ He1)).
  - intros Hc Xs.
    rewrite (predict_reads_stored_covfunc _ _ _ _ _ _ Hc).
    rewrite (predict_reads_stored_covfunc _ _ _ _ _ _
               (post_ok_covfunc _ _ _ _ _ _ Hp)).
    unfold GPR.predict_with.
    rewrite (bind_ok _ _ w1 (self w1) w1), (bind_ok _ _ w (self w) w) by done.
    rewrite (bind_ok _ _ w1 false w1) by (unfold lift; by rewrite Hv1).
    rewrite (bind_ok _ _ w true w) by (unfold lift; by rewrite Hv).
    by rewrite (bind_ok _ _ w () w1), (bind_ok _ _ w1 () w1).
Qed.

Lemma updatepost_blank hyp c n_iter tol verbose :
  GPR._updatepost hyp c (GPR.blank n_iter tol verbose) = Ok true.
Proof. unfold GPR._updatepost. cbn. by rewrite andb_false_r. Qed.

(** X15: the constructor starts from blank attributes, so with data it
    never finds a cache: [GPR(hyp, covfunc, X, y)] is the recomputation on
    a blank engine. Without a covariance function (the default None) and a
    non-empty hyp, it raises AttributeError where [post] calls
    [covfunc.cov]. *)
Theorem init_with_data hyp c X y n_iter tol verbose w :
  GPR.__init__ (Some hyp) (Some c) (Some X) (Some y) n_iter tol verbose w
  = GPR.recompute hyp c X y
      (entered X (updated (λ _, GPR.blank n_iter tol verbose) w))
  ∧ (hyp ≠ [] →
     ∃ w', GPR.__init__ (Some hyp) None (Some X) (Some y) n_iter tol verbose w
           = (Raise (AttributeError "cov"), w')).
Proof.
  split.
  - unfold GPR.__init__.
    rewrite (bind_ok _ _ w () (updated (λ _, GPR.blank n_iter tol verbose) w))
      by done.
    rewrite (bind_ok _ _ _ (updated (λ _, GPR.blank n_iter tol verbose) w)
               (updated (λ _, GPR.blank n_iter tol verbose) w)) by done.
    cbn [default]. rewrite post_stale; [done|apply updatepost_blank].
  - intros Hne. destruct hyp as [|h0 t]; [done|].
    unfold GPR.__init__.
    rewrite (bind_ok _ _ w () (updated (λ _, GPR.blank n_iter tol verbose) w))
      by done.
    rewrite (bind_ok _ _ _ (updated (λ _, GPR.blank n_iter tol verbose) w)
               (updated (λ _, GPR.blank n_iter tol verbose) w)) by done.
    rewrite post_stale by apply updatepost_blank.
    unfold GPR.recompute, GPR.noisy_kernel, cov. munfold.
    rewrite getitem_head.
    assert (heap w !! fresh (dom (heap w)) = None) as Hfresh
      by apply not_elem_of_dom, is_fresh.
    destruct verbose; cbn; rewrite Hfresh; by eexists.
Qed.

End further_properties.

Section further_estimate_properties.
Context `{!MathLib, !Comparison, !LinAlg, !PairwiseDistance, !Optimizer}.

Lemma lower_ascii_idem (a : ascii) : lower_ascii (lower_ascii a) = lower_ascii a.
Proof. by destruct a as [[] [] [] [] [] [] [] []]. Qed.

Lemma lower_idem (s : string) : lower (lower s) = lower s.
Proof.
  induction s as [|a s IH]; [done|]. cbn. by rewrite lower_ascii_idem, IH.
Qed.

(** X16: [estimate] reads the optimizer kind only through its lower-cased
    form. Two spellings with the same lower-cased form (a kind and its
    lower-cased form, for one) give the same result, exception or
    optimized hyp, and the same state, up to the spelling stored in
    [self.optimizer]. *)
Theorem estimate_ignores_case hyp0 c X y o o' w :
  lower o = lower o' →
  match GPR.estimate hyp0 c X y o w with
  | (Ok h, w1) =>
      ∃ w0, w1 = updated (Self.set_optimizer o) w0
            ∧ GPR.estimate hyp0 c X y o' w
              = (Ok h, updated (Self.set_optimizer o') w0)
  | (Raise e, w1) => GPR.estimate hyp0 c X y o' w = (Raise e, w1)
  end
  ∧ lower (lower o) = lower o.
Proof.
  intros Heq. split; [|apply lower_idem].
  unfold GPR.estimate. rewrite Heq. munfold.
  match goal with
  | |- context [match ?opt w with _ => _ end] => destruct (opt w) as [[out|e] w0]
  end; [|done].
  cbn. eexists (updated (Self.set_nlZ out.2)
                  (updated (Self.set_hyp (Vec out.1)) w0)).
  by destruct w0 as [[] ? ?].
Qed.

End further_estimate_properties.

(** * The methods on concrete data *)

Section examples.
Import Reference.
#[local] Existing Instances math comparison linalg distance optimize.
Local Open Scope float_scope.

(** [loglik] on the three points returns the documented value, which is
    finite. *)
Lemma loglik_returns_formula_witness :
  ∃ a Lm ya w2,
    Self.alpha (self posted) = Some a ∧ Self.L (self posted) = Some Lm
    ∧ Np.vdot y3 a = Ok ya
    ∧ F64.isfinite (GPR.nlZ_formula ya Lm 3) = true
    ∧ GPR.loglik hyp3 0%nat X3 y3 sqexp_world
      = (Ok (GPR.nlZ_formula ya Lm 3), w2).
Proof.
  destruct (loglik_returns_formula_when_finite hyp3 0%nat X3 y3 sqexp_world
              posted
              (default [] (Self.alpha (self posted)))
              (default [] (Self.L (self posted))) 3
              (value 0 (Np.vdot y3 (default [] (Self.alpha (self posted))))))
    as ((w2 & Hl & _) & _); [vm_compute; reflexivity..|].
  eexists _, _, _, w2. repeat (split; [vm_compute; reflexivity|]).
  rewrite Hl. f_equal.
Defined.

(** C1 (counterexample): one training point with the target 2^665. The
    factorisation and the solves return, the documented value is
    +infinity, and [loglik] returns 1/eps instead. *)
Lemma loglik_overflow_counterexample :
  ∃ w1 Lm a ya,
    GPR.post hyp3 0%nat X_one y_huge sqexp_world = (Ok (), w1)
    ∧ Self.L (self w1) = Some Lm ∧ Self.alpha (self w1) = Some a
    ∧ Self.N (self w1) = Some 1%nat ∧ Np.vdot y_huge a = Ok ya
    ∧ GPR.nlZ_formula ya Lm 1 = infinity
    ∧ (GPR.loglik hyp3 0%nat X_one y_huge sqexp_world).1
      = Ok 4503599627370496
    ∧ (4503599627370496 =? infinity) = false.
Proof.
  do 4 eexists.
  repeat (split; [vm_compute; reflexivity|]). vm_compute. reflexivity.
Qed.

(** [loglik] on the singular kernel returns the sentinel. *)
Lemma loglik_sentinel_witness :
  loglik_gives_up hyp_noiseless 0%nat X_twice y_twice sqexp_world
  ∧ (GPR.loglik hyp_noiseless 0%nat X_twice y_twice sqexp_world).1
    = Ok 4503599627370496.
Proof.
  assert (loglik_gives_up hyp_noiseless 0%nat X_twice y_twice sqexp_world) as Hg.
  { eapply cholesky_raises; vm_compute; reflexivity. }
  split; [exact Hg|].
  destruct (loglik_sentinel _ _ _ _ _ Hg) as ((w2 & -> & _) & _ & ->).
  reflexivity.
Defined.

Lemma predict_mean_and_variance_witness :
  (GPR.predict hyp3 X3 y3 Xs1 posted).1
  = Ok (value [] (Np.mvdot Ks1 (default [] (Self.alpha (self posted)))),
        Np.mmap (λ e, e + 1) d1)
  ∧ ∃ v, Np.mmap (λ e, e + 1) d1 = [[v]] ∧ (0 <? v) = true.
Proof.
  split.
  - destruct (predict_mean_and_variance hyp3 X3 y3 Xs1 posted 0%nat
                (default [] (Self.alpha (self posted)))
                (default [] (Self.L (self posted))) 0
                Ks1 (cov 0%nat (Some [0; 0]) Xs1 (Some X3) posted).2
                kss1 posted
                (value [] (Np.mvdot Ks1 (default [] (Self.alpha (self posted)))))
                V1 (value [] (Np.mdot (Np.transpose V1) V1)) d1)
      as (Hp & _); [vm_compute; reflexivity..|].
    rewrite Hp. vm_compute. reflexivity.
  - eexists. split; vm_compute; reflexivity.
Defined.



(** [post] on the singular kernel raises the error of the factorisation. *)
Lemma post_propagates_witness :
  GPR.post hyp_noiseless 0%nat X_twice y_twice sqexp_world
  = (Raise (LinAlgError "Matrix is not positive definite"),
     (GPR.noisy_kernel hyp_noiseless 0%nat X_twice
        (entered X_twice sqexp_world)).2).
Proof.
  apply (post_propagates_decomposition_error hyp_noiseless 0%nat X_twice
           y_twice sqexp_world [[1; 1]; [1; 1]]);
    vm_compute; reflexivity.
Defined.

(** [dloglik] on the singular kernel, as the first call on an engine. *)
Lemma dloglik_without_previous_gradient_witness :
  ∃ w', GPR.dloglik hyp_noiseless 0%nat X_twice y_twice sqexp_world
        = (Raise (AttributeError "dnlZ"), w').
Proof.
  eexists.
  apply (dloglik_without_previous_gradient hyp_noiseless 0%nat X_twice y_twice
           sqexp_world (LinAlgError "Matrix is not positive definite"));
    [done|vm_compute; reflexivity..].
Defined.

(** [dcov] past the last parameter, for the three classes. *)
Lemma dcov_invalid_index_witness :
  (∃ w', dcov 0%nat None X3 1 lin_world = (Raise invalid_parameter, w'))
  ∧ (∃ w', dcov 0%nat (Some [0; 0]) X3 2 sqexp_world
           = (Raise invalid_parameter, w'))
  ∧ (∃ w', dcov 0%nat (Some [0; 0]) X3 (-1) sqexp_world
           = (Raise invalid_parameter, w'))
  ∧ (∃ w', dcov 0%nat (Some [0; 0; 0]) [[0; 1]; [1; 2]; [2; 5]] 3 ard_world
           = (Raise invalid_parameter, w')).
Proof.
  split; [|split; [|split]].
  - apply (dcov_invalid_index 0%nat (CovLin false)); [done|]. cbn. lia.
  - apply (dcov_invalid_index 0%nat (CovSqExp None None)); [done|].
    split; [cbn; lia|]. do 2 eexists. vm_compute. reflexivity.
  - apply (dcov_invalid_index 0%nat (CovSqExp None None)); [done|].
    split; [cbn; lia|]. do 2 eexists. vm_compute. reflexivity.
  - apply (dcov_invalid_index 0%nat (CovSqExpARD 2 None None)); [done|].
    split; [cbn; lia|]. do 2 eexists. vm_compute. reflexivity.
Defined.

(** C7 (counterexample): the Linear variant has no parameter, so index 0
    is outside [0, parameterCount), and [dcov(None, X, 0)] returns a
    zero. *)
Lemma dcov_linear_zero_counterexample :
  heap lin_world !! 0%nat = Some (CovLin false)
  ∧ n_params (CovLin false) = 0%nat
  ∧ dcov 0%nat None X3 0 lin_world = (Ok (Zero_d 0), lin_world).
Proof. repeat (split; [vm_compute; reflexivity|]). vm_compute. reflexivity. Qed.

(** [CovLin.cov] with the empty [theta] that [post] passes for a hyp of
    length 1. *)
Lemma CovLin_cov_empty_theta_witness :
  cov 0%nat (Some (drop 1 [0])) X3 None lin_world
  = (Raise Np.index_error, lin_world).
Proof. apply (CovLin_cov_empty_theta_raises 0%nat X3 None lin_world). done. Defined.

(** [estimate] with the kinds "cg" and "powell", and with another one. *)
Lemma estimate_by_kind_witness :
  (∃ xopt fopt w1,
     fmin_cg (λ h, GPR.loglik h 0%nat X3 y3) hyp3
             (λ h, GPR.dloglik h 0%nat X3 y3)
             (Self.tol fresh_engine) (Self.n_iter fresh_engine) sqexp_world
     = (Ok (xopt, fopt), w1)
     ∧ GPR.estimate hyp3 0%nat X3 y3 "cg" sqexp_world
       = (Ok xopt, updated (estimated xopt fopt "cg") w1))
  ∧ (∃ xopt fopt w1,
       fmin_powell (λ h, GPR.loglik h 0%nat X3 y3) hyp3 sqexp_world
       = (Ok (xopt, fopt), w1)
       ∧ GPR.estimate hyp3 0%nat X3 y3 "powell" sqexp_world
         = (Ok xopt, updated (estimated xopt fopt "powell") w1))
  ∧ GPR.estimate hyp3 0%nat X3 y3 "newton" sqexp_world
    = (Raise GPR.unknown_optimizer, sqexp_world).
Proof.
  destruct (estimate_by_kind hyp3 0%nat X3 y3 "cg" sqexp_world) as (Hcg & _ & _).
  destruct (estimate_by_kind hyp3 0%nat X3 y3 "powell" sqexp_world) as (_ & Hpow & _).
  destruct (estimate_by_kind hyp3 0%nat X3 y3 "newton" sqexp_world) as (_ & _ & Hother).
  split; [|split].
  - destruct (fmin_cg _ hyp3 _ _ _ sqexp_world) as [[[xopt fopt]|e] w1] eqn:E;
      [|vm_compute in E; discriminate E].
    exists xopt, fopt, w1. split; [done|]. by apply (Hcg eq_refl _ _ E).
  - destruct (fmin_powell _ hyp3 sqexp_world) as [[[xopt fopt]|e] w1] eqn:E;
      [|vm_compute in E; discriminate E].
    exists xopt, fopt, w1. split; [done|]. by apply (Hpow eq_refl _ _ E).
  - by apply Hother.
Defined.

(** C9 (counterexample): "CG" is not "cg", and [estimate] does not raise
    the unknown-optimizer error on it: it returns what it returns for
    "cg". *)
Lemma estimate_upper_case_counterexample :
  "CG"%string ≠ "cg"%string
  ∧ (GPR.estimate hyp3 0%nat X3 y3 "CG" sqexp_world).1
    = (GPR.estimate hyp3 0%nat X3 y3 "cg" sqexp_world).1
  ∧ ∃ xopt, (GPR.estimate hyp3 0%nat X3 y3 "CG" sqexp_world).1 = Ok xopt.
Proof.
  split; [done|]. split; [vm_compute; reflexivity|].
  eexists. vm_compute. reflexivity.
Qed.

(** [loglik] with the Linear variant and a hyp of length 1 (the noise term
    alone): [post] passes the empty [theta], and the IndexError is not one
    of the classes [loglik] catches. *)
Example loglik_linear_example :
  (GPR.loglik [0] 0%nat X3 y3 lin_world).1 = Raise Np.index_error.
Proof. vm_compute. reflexivity. Qed.

(** [predict] before and after a first [post]. *)
Lemma predict_needs_stored_covfunc_witness :
  GPR.predict hyp3 X3 y3 Xs1 sqexp_world
  = (Raise (AttributeError "covfunc"), sqexp_world)
  ∧ Self.covfunc (self posted) = Some 0%nat
  ∧ GPR.predict hyp3 X3 y3 Xs1 posted
    = GPR.predict_with hyp3 0%nat X3 y3 Xs1 posted.
Proof.
  split.
  - by apply (predict_needs_stored_covfunc hyp3 X3 y3 Xs1 sqexp_world).
  - apply (predict_needs_stored_covfunc hyp3 X3 y3 Xs1 posted)
      with (hyp0 := hyp3) (X0 := X3) (y0 := y3) (w0 := sqexp_world).
    vm_compute. reflexivity.
Defined.

End examples.

(** * The further properties on concrete data *)

Section further_examples.
Import Reference.
#[local] Existing Instances math comparison linalg distance optimize.
Local Open Scope float_scope.

(** [loglik] on the three points returns a finite value and stores it. *)
Lemma loglik_returns_finite_stored_witness :
  F64.isfinite (value 0 (GPR.loglik hyp3 0%nat X3 y3 sqexp_world).1) = true
  ∧ Self.nlZ (self (GPR.loglik hyp3 0%nat X3 y3 sqexp_world).2)
    = value 0 (GPR.loglik hyp3 0%nat X3 y3 sqexp_world).1.
Proof.
  apply (loglik_returns_finite_stored hyp3 0%nat X3 y3 sqexp_world).
  vm_compute. reflexivity.
Defined.

(** [dloglik] on the three points returns three derivatives and stores
    them. *)
Lemma dloglik_gradient_shape_witness :
  length (value [] (GPR.dloglik hyp3 0%nat X3 y3 sqexp_world).1) = 3%nat
  ∧ Self.dnlZ (self (GPR.dloglik hyp3 0%nat X3 y3 sqexp_world).2)
    = Some (value [] (GPR.dloglik hyp3 0%nat X3 y3 sqexp_world).1).
Proof.
  destruct (dloglik_gradient_shape hyp3 0%nat X3 y3 sqexp_world posted
              (value [] (GPR.dloglik hyp3 0%nat X3 y3 sqexp_world).1)
              (GPR.dloglik hyp3 0%nat X3 y3 sqexp_world).2)
    as (Hlen & Hd & _);
    [vm_compute; reflexivity | vm_compute; reflexivity |].
  split; [exact Hlen | exact Hd].
Defined.

(** A [post] on a singular matrix, after a successful one, leaves the key
    of the cache as the successful one set it. *)
Lemma failed_post_keeps_cache_key_witness :
  cache_key (self (GPR.post hyp_noiseless 0%nat X_twice y_twice posted).2)
  = cache_key (self posted).
Proof.
  apply (failed_post_keeps_cache_key hyp_noiseless 0%nat X_twice y_twice posted
           (LinAlgError "Matrix is not positive definite")).
  vm_compute. reflexivity.
Defined.

(** With the posterior of the three points cached, [loglik] gives the same
    for other data. *)
Lemma loglik_valid_cache_ignores_X_witness :
  GPR.loglik hyp3 0%nat X3 y3 posted = GPR.loglik hyp3 0%nat X_twice y3 posted.
Proof.
  apply (loglik_valid_cache_ignores_X hyp3 0%nat X3 X_twice y3 posted).
  vm_compute. reflexivity.
Defined.

(** The empty hyp on a fresh engine. *)
Lemma empty_hyp_raises_witness :
  GPR.post [] 0%nat X3 y3 sqexp_world
  = (Raise Np.index_error, entered X3 sqexp_world)
  ∧ GPR.loglik [] 0%nat X3 y3 sqexp_world
    = (Raise Np.index_error, entered X3 sqexp_world)
  ∧ GPR.dloglik [] 0%nat X3 y3 sqexp_world = (Raise Np.index_error, sqexp_world).
Proof.
  apply (empty_hyp_raises 0%nat X3 y3 sqexp_world). vm_compute. reflexivity.
Defined.

(** The [IndexError] of [CovLin.cov] on a hyp of length 1 leaves [loglik]
    and [dloglik] as it leaves [post]. *)
Lemma uncaught_errors_propagate_witness :
  GPR.loglik [0] 0%nat X3 y3 lin_world
  = (Raise Np.index_error, entered X3 lin_world)
  ∧ ([0] ≠ [] →
     GPR.dloglik [0] 0%nat X3 y3 lin_world
     = (Raise Np.index_error, entered X3 lin_world)).
Proof.
  apply (uncaught_errors_propagate [0] 0%nat X3 y3 lin_world);
    vm_compute; reflexivity.
Defined.

(** A squared-exponential covariance with a hyp of length 2. *)
Lemma short_hyp_raises_IndexError_witness :
  ∃ w1, GPR.post [0; 0] 0%nat X3 y3 sqexp_world = (Raise Np.index_error, w1)
    ∧ GPR.loglik [0; 0] 0%nat X3 y3 sqexp_world = (Raise Np.index_error, w1)
    ∧ GPR.dloglik [0; 0] 0%nat X3 y3 sqexp_world = (Raise Np.index_error, w1).
Proof.
  apply (short_hyp_raises_IndexError 0%nat None None 0 [0] X3 y3 sqexp_world);
    [done | cbn; lia | vm_compute; reflexivity].
Defined.

(** Index -1 of the ARD covariance over two-column data is index 1. *)
Lemma dcov_ARD_negative_index_wraps_witness :
  dcov 0%nat (Some [0; 0; 0]) [[0; 1]; [1; 2]; [2; 5]] (-1) ard_world
  = dcov 0%nat (Some [0; 0; 0]) [[0; 1]; [1; 2]; [2; 5]] (-1 + Z.of_nat 2)
      ard_world.
Proof.
  apply (dcov_ARD_negative_index_wraps 0%nat 2 None None);
    [done | reflexivity | cbn; lia].
Defined.

(** The derivative of the ARD covariance in the signal variance, over
    two-column data. *)
Lemma dcov_ARD_signal_variance_witness :
  dcov 0%nat (Some [0; 0; 0]) [[0; 1]; [1; 2]; [2; 5]] (Z.of_nat 2) ard_world
  = (Ok (Two_d (Np.mmap (λ k, 2 * k)
           (value [] (cov 0%nat (Some [0; 0; 0]) [[0; 1]; [1; 2]; [2; 5]] None
                        ard_world).1))),
     (cov 0%nat (Some [0; 0; 0]) [[0; 1]; [1; 2]; [2; 5]] None ard_world).2).
Proof.
  apply (dcov_ARD_signal_variance 0%nat 2 None None); [done|].
  vm_compute. reflexivity.
Defined.

(** The derivative of the squared-exponential covariance in the
    lengthscale, on the three points. *)
Lemma dcov_SqExp_lengthscale_witness :
  ∃ t0 R, theta_item (Some [0; 0]) 0 = Ok t0
    ∧ squared_dist (Np.mmap (λ a, a / np_exp t0) X3)
        (Np.mmap (λ a, a / np_exp t0) X3) = Ok R
    ∧ dcov 0%nat (Some [0; 0]) X3 0 sqexp_world
      = (Ok (Two_d (zip_with (zip_with mul)
               (value [] (cov 0%nat (Some [0; 0]) X3 None sqexp_world).1) R)),
         (cov 0%nat (Some [0; 0]) X3 None sqexp_world).2).
Proof.
  refine (dcov_SqExp_lengthscale 0%nat None None (Some [0; 0]) X3 _
            sqexp_world _ _ _); [done|].
  vm_compute. reflexivity.
Defined.

(** The first [cov] of a [CovLin] with a parameter prints the notice; the
    later ones do not. *)
Lemma CovLin_warns_once_witness :
  ∃ w1, cov 0%nat (Some [0]) X3 None lin_world
        = (Np.mdot X3 (Np.transpose (default X3 None)), w1)
    ∧ stdout w1 = stdout lin_world ++ [CovLin.unnecessary]
    ∧ heap w1 !! 0%nat = Some (CovLin true)
    ∧ ∀ theta' x' z',
        cov 0%nat theta' x' z' w1
        = (Np.mdot x' (Np.transpose (default x' z')), w1).
Proof. apply (CovLin_warns_once 0%nat 0 [] X3 None lin_world). done. Defined.

(** [cov] of a fresh [CovSqExp], which stores its two parameters, leaves
    the engine as it was and the instance with two parameters. *)
Lemma covariance_calls_are_local_witness :
  self (cov 0%nat (Some [0; 0]) X3 None sqexp_world).2 = self sqexp_world
  ∧ n_params <$> heap (cov 0%nat (Some [0; 0]) X3 None sqexp_world).2 !! 0%nat
    = Some 2%nat.
Proof.
  destruct (covariance_calls_are_local 0%nat (CovSqExp None None)
              (Some [0; 0]) X3 None 0 sqexp_world) as [Hc _]; [done|].
  destruct (Hc _ _ (surjective_pairing _)) as (Hs & _ & Hn).
  split; [exact Hs | exact Hn].
Defined.

(** A second [CovSqExp()] after the posterior of the three points: the
    cache is stale for it. *)
Lemma new_instance_invalidates_cache_witness :
  heap posted !! 1%nat = None
  ∧ is_Some (heap (new_CovSqExp posted).2 !! 1%nat)
  ∧ self (new_CovSqExp posted).2 = self posted
  ∧ heap (new_CovSqExp posted).2 !! 0%nat = heap posted !! 0%nat
  ∧ GPR._updatepost hyp3 1%nat (self (new_CovSqExp posted).2) ≠ Ok false
  ∧ (∀ hypeq,
       Np.eq_all np_equal_mismatch hyp3 (Self.hyp (self posted)) = Ok hypeq →
       GPR._updatepost hyp3 1%nat (self (new_CovSqExp posted).2) = Ok true).
Proof.
  apply (new_instance_invalidates_cache new_CovSqExp 1%nat 0%nat hyp3 posted
           (new_CovSqExp posted).2).
  - right. left. reflexivity.
  - vm_compute. reflexivity.
  - vm_compute. reflexivity.
  - eexists. vm_compute. reflexivity.
Defined.

(** [loglik] and [dloglik] on the three points, after [post] and without
    it. *)
Lemma explicit_post_is_redundant_witness :
  GPR.loglik hyp3 0%nat X3 y3 posted = GPR.loglik hyp3 0%nat X3 y3 sqexp_world
  ∧ GPR.dloglik hyp3 0%nat X3 y3 posted
    = GPR.dloglik hyp3 0%nat X3 y3 sqexp_world.
Proof.
  destruct (explicit_post_is_redundant hyp3 0%nat X3 y3 sqexp_world posted)
    as (Hl & Hd & _);
    [vm_compute; reflexivity | vm_compute; reflexivity
    | repeat constructor |].
  split; [exact Hl | exact Hd].
Defined.

(** The constructor with the three points raises nothing and leaves the
    posterior; without a covariance it raises. *)
Lemma init_with_data_witness :
  GPR.__init__ (Some hyp3) (Some 0%nat) (Some X3) (Some y3) 1000 0x1p-10 false
    sqexp_world
  = GPR.recompute hyp3 0%nat X3 y3
      (entered X3 (updated (λ _, GPR.blank 1000 0x1p-10 false) sqexp_world))
  ∧ (hyp3 ≠ [] →
     ∃ w', GPR.__init__ (Some hyp3) None (Some X3) (Some y3) 1000 0x1p-10 false
             sqexp_world
           = (Raise (AttributeError "cov"), w')).
Proof. apply (init_with_data hyp3 0%nat X3 y3). Defined.

(** The kinds "CG" and "cg". *)
Lemma estimate_ignores_case_witness :
  match GPR.estimate hyp3 0%nat X3 y3 "CG" sqexp_world with
  | (Ok h, w1) =>
      ∃ w0, w1 = updated (Self.set_optimizer "CG") w0
            ∧ GPR.estimate hyp3 0%nat X3 y3 "cg" sqexp_world
              = (Ok h, updated (Self.set_optimizer "cg") w0)
  | (Raise e, w1) =>
      GPR.estimate hyp3 0%nat X3 y3 "cg" sqexp_world = (Raise e, w1)
  end
  ∧ lower (lower "CG") = lower "CG".
Proof. apply (estimate_ignores_case hyp3 0%nat X3 y3 "CG" "cg"). reflexivity. Defined.

(** A hyp of two entries on the posterior of the three points, whose hyp
    has three. *)
Lemma cache_test_error_propagates_witness :
  GPR.post [0; 0] 0%nat X3 y3 posted
  = (Raise Np.broadcast_error, entered X3 posted)
  ∧ GPR.loglik [0; 0] 0%nat X3 y3 posted = (Raise Np.broadcast_error, posted)
  ∧ GPR.dloglik [0; 0] 0%nat X3 y3 posted = (Raise Np.broadcast_error, posted)
  ∧ GPR.predict [0; 0] X3 y3 Xs1 posted = (Raise Np.broadcast_error, posted).
Proof.
  destruct (cache_test_error_propagates [0; 0] 0%nat X3 y3 posted
              Np.broadcast_error) as (_ & Hp & Hl & Hd & Hq);
    [vm_compute; reflexivity|].
  split; [exact Hp|]. split; [exact Hl|].
  split; [by apply Hd|]. apply Hq. vm_compute. reflexivity.
Defined.

End further_examples.
